(** * Azure-blob: the storage adapter and its key-derivation helper

    A shallow embedding of [src/storage.py]: the class [AzureBlobStorage]
    (a façade over the Azure SDK's [ContainerClient]) and the module-level
    function [generate_storage_path].

    Conventions of the embedding.
    - A Python [str] that the code only concatenates, splits or passes on
      is a [string], standing for the text's UTF-8 byte sequence. The one
      [str] that the code encodes, the source URL of [generate_storage_path],
      is the list of its code points ([pystr]), so that [str.encode()] has
      its error path.
    - A Python [bytes] is a [list byte], a Python [int] is a [Z].
    - A method that may touch the backend, or raise, is a computation in the
      monad [M world]: it takes the world before the call and returns either
      [Ok v] or [Raise e], with the world after the call.
    - The Azure SDK is external to the repository: the adapter is written over
      the interface [SDK], and [MemSDK] is one container held in memory. *)

From Stdlib Require Import ZArith NArith Lia.
From Stdlib Require Import Strings.Ascii.
From Stdlib Require Strings.String Strings.Byte.
From stdpp Require Import gmap strings list.

Local Open Scope Z_scope.

Abbreviation byte := Byte.byte.
Abbreviation bytes := (list byte).

(** ** Exceptions and the error-state monad *)

(** The classes of Python's [Exception] hierarchy that the modelled code can
    meet: the SDK's errors, and the built-in ones. *)
Inductive exn : Type :=
  | ValueError
  | IndexError
  | UnicodeEncodeError
  | ResourceNotFoundError
  | ResourceExistsError
  | ClientAuthenticationError
  | HttpResponseError
  | ServiceRequestError.

Global Instance exn_eq_dec : EqDecision exn.
Proof. solve_decision. Defined.

Inductive result (A : Type) : Type :=
  | Ok (a : A)
  | Raise (e : exn).
Arguments Ok {A} a.
Arguments Raise {A} e.

Definition M (W A : Type) : Type := W → result A * W.

Definition ret {W A} (a : A) : M W A := λ w, (Ok a, w).

Definition raise {W A} (e : exn) : M W A := λ w, (Raise e, w).

Definition bind {W A B} (m : M W A) (k : A → M W B) : M W B :=
  λ w, match m w with
       | (Ok a, w') => k a w'
       | (Raise e, w') => (Raise e, w')
       end.

(** [try: m  except Exception: h] *)
Definition try_except {W A} (m : M W A) (h : exn → M W A) : M W A :=
  λ w, match m w with
       | (Ok a, w') => (Ok a, w')
       | (Raise e, w') => h e w'
       end.

Notation "x <- m ;; k" := (bind m (λ x, k))
  (at level 100, m at next level, right associativity).
Notation "m ;;; k" := (bind m (λ _, k))
  (at level 100, right associativity).

(** ** The SDK interface

    What [src/storage.py] calls on [azure.storage.blob]:
    [ContainerClient.from_container_url], [ContainerClient.get_blob_client],
    and on the blob client [upload_blob], [delete_blob], [exists],
    [download_blob] whose result has [readall]. *)
Class SDK : Type := {
  world : Type;
  ContainerClient : Type;
  BlobClient : Type;
  StorageStreamDownloader : Type;
  from_container_url : string → M world ContainerClient;
  get_blob_client : ContainerClient → string → M world BlobClient;
  upload_blob : BlobClient → bytes → bool → M world unit;
  delete_blob : BlobClient → M world unit;
  blob_exists : BlobClient → M world bool;
  download_blob : BlobClient → M world StorageStreamDownloader;
  readall : StorageStreamDownloader → M world bytes;
}.

(** ** Python's [str.split] with a one-character separator *)

Fixpoint str_split (sep : ascii) (s : string) : list string :=
  match s with
  | EmptyString => [EmptyString]
  | String c s' =>
      if decide (c = sep) then EmptyString :: str_split sep s'
      else match str_split sep s' with
           | x :: xs => String c x :: xs
           | [] => [String c EmptyString]
           end
  end.

(** The spec's wording of the base URL: the SAS URL with everything from the
    first '?' onward stripped. *)
Fixpoint strip_query (s : string) : string :=
  match s with
  | EmptyString => EmptyString
  | String c s' => if decide (c = "?"%char) then EmptyString
                   else String c (strip_query s')
  end.

(** ** The adapter: [class AzureBlobStorage] *)

Section Adapter.
Context `{sdk : SDK}.

Record AzureBlobStorage : Type := {
  sas_url : string;
  sas_token : string;
  container_name : string;
  container_client : ContainerClient;
}.

(** [AzureBlobStorage.__init__] *)
Definition init (sas_url sas_token container_name : string)
  : M world AzureBlobStorage :=
  client <- from_container_url sas_url ;;
  ret {| sas_url := sas_url;
         sas_token := sas_token;
         container_name := container_name;
         container_client := client |}.

Definition upload (self : AzureBlobStorage) (file_path : string) (data : bytes)
  : M world string :=
  blob_client <- get_blob_client (container_client self) file_path ;;
  upload_blob blob_client data true ;;;
  ret file_path.

Definition get_url (self : AzureBlobStorage) (file_path : string)
    (expiry_hours : Z) : M world string :=
  match str_split "?" (sas_url self) with
  | base_url :: _ =>
      ret (base_url +:+ "/" +:+ file_path +:+ "?" +:+ sas_token self)
  | [] => raise IndexError
  end.

Definition delete (self : AzureBlobStorage) (file_path : string)
  : M world bool :=
  try_except
    (blob_client <- get_blob_client (container_client self) file_path ;;
     delete_blob blob_client ;;;
     ret true)
    (λ _, ret false).

(** [AzureBlobStorage.exists] ([exists] is a reserved word here) *)
Definition exists_ (self : AzureBlobStorage) (file_path : string)
  : M world bool :=
  blob_client <- get_blob_client (container_client self) file_path ;;
  blob_exists blob_client.

Definition download (self : AzureBlobStorage) (file_path : string)
  : M world bytes :=
  blob_client <- get_blob_client (container_client self) file_path ;;
  downloader <- download_blob blob_client ;;
  readall downloader.
End Adapter.

Arguments AzureBlobStorage {sdk}.

(** ** One container in memory

    Modelled from the spec: the Azure SDK ([azure.storage.blob]) is an
    external library and is not part of [src/]. The container is the spec's
    data model: zero or more blobs addressed by key, each an opaque byte
    sequence, last write wins; a download or a deletion of an absent key
    fails with a not-found error, the existence check answers with a boolean.
    Every request to the service first consults a script of pending faults,
    so that a network or permission failure can strike any call. *)
Record MemWorld : Type := {
  blobs : gmap string bytes;
  faults : list (option exn);
}.

Definition set_blobs (f : gmap string bytes → gmap string bytes) (w : MemWorld)
  : MemWorld :=
  {| blobs := f (blobs w); faults := faults w |}.

(** One round trip to the service: the next entry of the fault script decides
    whether the service answers ([None], or the script is over) or the call
    fails with [e] ([Some e]). *)
Definition request : M MemWorld unit :=
  λ w, match faults w with
       | [] => (Ok tt, w)
       | None :: fs => (Ok tt, {| blobs := blobs w; faults := fs |})
       | Some e :: fs => (Raise e, {| blobs := blobs w; faults := fs |})
       end.

Record MemContainerClient : Type := { container_url : string }.
Record MemBlobClient : Type := { blob_name : string }.
Record MemDownloader : Type := { content : bytes }.

Definition mem_upload_blob (b : MemBlobClient) (data : bytes) (overwrite : bool)
  : M MemWorld unit :=
  request ;;;
  λ w, match blobs w !! blob_name b with
       | Some _ =>
           if overwrite then (Ok tt, set_blobs <[blob_name b := data]> w)
           else (Raise ResourceExistsError, w)
       | None => (Ok tt, set_blobs <[blob_name b := data]> w)
       end.

Definition mem_delete_blob (b : MemBlobClient) : M MemWorld unit :=
  request ;;;
  λ w, match blobs w !! blob_name b with
       | Some _ => (Ok tt, set_blobs (base.delete (blob_name b)) w)
       | None => (Raise ResourceNotFoundError, w)
       end.

Definition mem_blob_exists (b : MemBlobClient) : M MemWorld bool :=
  request ;;;
  λ w, (Ok (bool_decide (is_Some (blobs w !! blob_name b))), w).

Definition mem_download_blob (b : MemBlobClient) : M MemWorld MemDownloader :=
  request ;;;
  λ w, match blobs w !! blob_name b with
       | Some data => (Ok {| content := data |}, w)
       | None => (Raise ResourceNotFoundError, w)
       end.

Global Instance MemSDK : SDK := {|
  world := MemWorld;
  ContainerClient := MemContainerClient;
  BlobClient := MemBlobClient;
  StorageStreamDownloader := MemDownloader;
  from_container_url url := ret {| container_url := url |};
  get_blob_client _ name := ret {| blob_name := name |};
  upload_blob := mem_upload_blob;
  delete_blob := mem_delete_blob;
  blob_exists := mem_blob_exists;
  download_blob := mem_download_blob;
  readall d := ret (content d);
|}.

(** The service answers every request still to come. *)
Definition reliable (w : MemWorld) : Prop := Forall (λ f, f = None) (faults w).

(** ** Decimal text of integers *)

Definition digit_char (d : N) : ascii := ascii_of_N (48 + d).

Definition digit_value (c : ascii) : option N :=
  let n := N_of_ascii c in
  if ((48 <=? n) && (n <=? 57))%N then Some (n - 48)%N else None.

(** The decimal digits of [n], most significant first, in front of [acc].
    [fuel] bounds the number of digits. *)
Fixpoint digits_aux (fuel : nat) (n : N) (acc : string) : string :=
  match fuel with
  | O => acc
  | S fuel' =>
      let acc' := String (digit_char (n mod 10)) acc in
      if (n <? 10)%N then acc' else digits_aux fuel' (n / 10) acc'
  end.

Definition str_N (n : N) : string :=
  digits_aux (S (N.to_nat (N.log2 n))) n "".

(** Python's [str(n)] for an [int]. *)
Definition str_int (n : Z) : string :=
  if n <? 0 then "-" +:+ str_N (Z.abs_N n) else str_N (Z.abs_N n).

Fixpoint str_repeat (c : ascii) (k : nat) : string :=
  match k with
  | O => ""
  | S k' => String c (str_repeat c k')
  end.

Definition zero_pad (width : nat) (s : string) : string :=
  str_repeat "0" (width - String.length s) +:+ s.

(** Python's [format(n, "0<width>d")]: zero fill after the sign, up to a
    total of [width] characters; [f"{n:02d}"] is [format_0d 2 n]. *)
Definition format_0d (width : nat) (n : Z) : string :=
  if n <? 0 then "-" +:+ zero_pad (width - 1) (str_N (Z.abs_N n))
  else zero_pad width (str_N (Z.abs_N n)).

(** Reading decimal text back, as Python's [int(s)] does on an optional minus
    sign followed by digits. Used to state what a segment of a key denotes. *)
Fixpoint parse_digits (acc : N) (s : string) : option N :=
  match s with
  | EmptyString => Some acc
  | String c s' =>
      match digit_value c with
      | Some d => parse_digits (10 * acc + d) s'
      | None => None
      end
  end.

Definition int_of_str (s : string) : option Z :=
  match s with
  | EmptyString => None
  | String c s' =>
      if decide (c = "-"%char) then
        match s' with
        | EmptyString => None
        | _ => (λ n, - Z.of_N n) <$> parse_digits 0 s'
        end
      else Z.of_N <$> parse_digits 0 s
  end.

(** ** Hexadecimal text of bytes: [hexdigest] *)

Definition hex_char (d : N) : ascii :=
  if (d <? 10)%N then ascii_of_N (48 + d) else ascii_of_N (87 + d).

Definition hex_value (c : ascii) : option N :=
  let n := N_of_ascii c in
  if ((48 <=? n) && (n <=? 57))%N then Some (n - 48)%N
  else if ((97 <=? n) && (n <=? 102))%N then Some (n - 87)%N
  else None.

Definition is_lower_hex (c : ascii) : bool :=
  bool_decide (is_Some (hex_value c)).

Definition byte_of_N (n : N) : byte := byte_of_ascii (ascii_of_N n).

Fixpoint hexlify (d : bytes) : string :=
  match d with
  | [] => ""
  | b :: d' =>
      String (hex_char (Byte.to_N b / 16))
        (String (hex_char (Byte.to_N b mod 16)) (hexlify d'))
  end.

Fixpoint unhexlify (s : string) : option bytes :=
  match s with
  | EmptyString => Some []
  | String _ EmptyString => None
  | String h (String l s') =>
      match hex_value h, hex_value l, unhexlify s' with
      | Some x, Some y, Some d => Some (byte_of_N (16 * x + y) :: d)
      | _, _, _ => None
      end
  end.

(** ** MD5

    [hashlib.md5] belongs to Python's standard library, not to [src/]; the
    digest is written out here as RFC 1321 defines it, on 32-bit words held
    in [N] with the wrap-around explicit. *)
Module MD5.
Local Open Scope N_scope.

Definition mask32 : N := 0xffffffff.

Definition add32 (x y : N) : N := (x + y) mod 2 ^ 32.

Definition not32 (x : N) : N := N.lxor x mask32.

Definition rotl32 (x s : N) : N :=
  N.lor (N.land (N.shiftl x s) mask32) (N.shiftr x (32 - s)).

(** [floor (2^32 * abs (sin (i + 1)))] for [i] from 0 to 63 *)
Definition K : list N :=
  [ 0xd76aa478; 0xe8c7b756; 0x242070db; 0xc1bdceee;
    0xf57c0faf; 0x4787c62a; 0xa8304613; 0xfd469501;
    0x698098d8; 0x8b44f7af; 0xffff5bb1; 0x895cd7be;
    0x6b901122; 0xfd987193; 0xa679438e; 0x49b40821;
    0xf61e2562; 0xc040b340; 0x265e5a51; 0xe9b6c7aa;
    0xd62f105d; 0x02441453; 0xd8a1e681; 0xe7d3fbc8;
    0x21e1cde6; 0xc33707d6; 0xf4d50d87; 0x455a14ed;
    0xa9e3e905; 0xfcefa3f8; 0x676f02d9; 0x8d2a4c8a;
    0xfffa3942; 0x8771f681; 0x6d9d6122; 0xfde5380c;
    0xa4beea44; 0x4bdecfa9; 0xf6bb4b60; 0xbebfbc70;
    0x289b7ec6; 0xeaa127fa; 0xd4ef3085; 0x04881d05;
    0xd9d4d039; 0xe6db99e5; 0x1fa27cf8; 0xc4ac5665;
    0xf4292244; 0x432aff97; 0xab9423a7; 0xfc93a039;
    0x655b59c3; 0x8f0ccc92; 0xffeff47d; 0x85845dd1;
    0x6fa87e4f; 0xfe2ce6e0; 0xa3014314; 0x4e0811a1;
    0xf7537e82; 0xbd3af235; 0x2ad7d2bb; 0xeb86d391 ].

(** per-round left-rotation amounts *)
Definition R : list N :=
  [ 7; 12; 17; 22; 7; 12; 17; 22; 7; 12; 17; 22; 7; 12; 17; 22;
    5;  9; 14; 20; 5;  9; 14; 20; 5;  9; 14; 20; 5;  9; 14; 20;
    4; 11; 16; 23; 4; 11; 16; 23; 4; 11; 16; 23; 4; 11; 16; 23;
    6; 10; 15; 21; 6; 10; 15; 21; 6; 10; 15; 21; 6; 10; 15; 21 ].

Record state : Type := State { sa : N; sb : N; sc : N; sd : N }.

Definition init_state : state :=
  State 0x67452301 0xefcdab89 0x98badcfe 0x10325476.

(** operation [i] of the 64 on the block of sixteen words [m] *)
Definition step (m : list N) (st : state) (i : nat) : state :=
  let '(State a b c d) := st in
  let '(f, g) :=
    if (i <? 16)%nat then
      (N.lor (N.land b c) (N.land (not32 b) d), i)
    else if (i <? 32)%nat then
      (N.lor (N.land d b) (N.land (not32 d) c), ((5 * i + 1) mod 16)%nat)
    else if (i <? 48)%nat then
      (N.lxor (N.lxor b c) d, ((3 * i + 5) mod 16)%nat)
    else
      (N.lxor c (N.lor b (not32 d)), ((7 * i) mod 16)%nat) in
  let f' := add32 (add32 (add32 f a) (nth i K 0)) (nth g m 0) in
  State d (add32 b (rotl32 f' (nth i R 0))) b c.

Definition process_block (st : state) (m : list N) : state :=
  let '(State a b c d) := fold_left (step m) (seq 0 64) st in
  State (add32 (sa st) a) (add32 (sb st) b) (add32 (sc st) c) (add32 (sd st) d).

(** [k] bytes of [x], least significant first *)
Fixpoint le_bytes (k : nat) (x : N) : list N :=
  match k with
  | O => []
  | S k' => x mod 256 :: le_bytes k' (x / 256)
  end.

Fixpoint le_word (bs : list N) : N :=
  match bs with
  | [] => 0
  | b :: bs' => b + 256 * le_word bs'
  end.

(** the message, a 1 bit, zeros up to 56 modulo 64 bytes, then the length
    in bits on 64 bits *)
Definition pad (msg : list N) : list N :=
  let len := length msg in
  msg ++ [0x80] ++ repeat 0 ((119 - len mod 64) mod 64)%nat
      ++ le_bytes 8 ((8 * N.of_nat len) mod 2 ^ 64).

(** [n] consecutive chunks of [size] elements *)
Fixpoint chunks {A} (size n : nat) (l : list A) : list (list A) :=
  match n with
  | O => []
  | S n' => take size l :: chunks size n' (drop size l)
  end.

Definition block_words (block : list N) : list N :=
  le_word <$> chunks 4 16 block.

Definition digest_state (msg : list N) : state :=
  let p := pad msg in
  fold_left process_block (block_words <$> chunks 64 (length p / 64)%nat p)
    init_state.

Definition md5 (data : bytes) : bytes :=
  let '(State a b c d) := digest_state (Byte.to_N <$> data) in
  byte_of_N <$> (le_bytes 4 a ++ le_bytes 4 b ++ le_bytes 4 c ++ le_bytes 4 d).

(** [hashlib.md5(data).hexdigest()] *)
Definition hexdigest (data : bytes) : string := hexlify (md5 data).
End MD5.

(** ** The key-derivation helper *)

(** The fields of a Python [datetime]. *)
Record datetime : Type := {
  year : Z;
  month : Z;
  day : Z;
  hour : Z;
  minute : Z;
  second : Z;
  microsecond : Z;
}.

(** The ranges that Python's [datetime] type keeps its date fields in
    ([MINYEAR] is 1 and [MAXYEAR] is 9999). *)
Definition valid_date (d : datetime) : Prop :=
  1 ≤ year d ≤ 9999 ∧ 1 ≤ month d ≤ 12 ∧ 1 ≤ day d ≤ 31.

Definition same_utc_day (d1 d2 : datetime) : Prop :=
  year d1 = year d2 ∧ month d1 = month d2 ∧ day d1 = day d2.

(** A [str] by its code points, each at most 0x10FFFF. *)
Abbreviation pystr := (list N).

(** the [str] of a literal made of ASCII characters *)
Definition text (s : string) : pystr :=
  N_of_ascii <$> String.list_ascii_of_string s.

Definition is_surrogate (c : N) : bool := ((0xD800 <=? c) && (c <=? 0xDFFF))%N.

(** the UTF-8 bytes of one code point *)
Definition utf8_char (c : N) : list N :=
  (if c <? 0x80 then [c]
   else if c <? 0x800 then [0xC0 + c / 64; 0x80 + c mod 64]
   else if c <? 0x10000 then
     [0xE0 + c / 4096; 0x80 + (c / 64) mod 64; 0x80 + c mod 64]
   else
     [0xF0 + c / 262144; 0x80 + (c / 4096) mod 64; 0x80 + (c / 64) mod 64;
      0x80 + c mod 64])%N.

(** [str.encode()]: UTF-8 with the strict error handler, which refuses a
    surrogate code point. *)
Definition encode (s : pystr) : result bytes :=
  if existsb is_surrogate s then Raise UnicodeEncodeError
  else Ok (byte_of_N <$> (s ≫= utf8_char)).

(** [s] holds no surrogate code point. *)
Definition encodable (s : pystr) : Prop := existsb is_surrogate s = false.

Definition default_prefix : string := "processed".

(** [generate_storage_path]; [utcnow] is what [datetime.utcnow()] returns at
    the call. *)
Definition generate_storage_path (utcnow : datetime) (original_url : pystr)
    (prefix : string) : result string :=
  let now := utcnow in
  match encode original_url with
  | Raise e => Raise e
  | Ok data =>
      let url_hash := MD5.hexdigest data in
      Ok (prefix +:+ "/" +:+ str_int (year now) +:+ "/" +:+ format_0d 2 (month now)
            +:+ "/" +:+ format_0d 2 (day now) +:+ "/" +:+ url_hash +:+ ".jpg")
  end.


(** The shape [<prefix>/<year>/<month>/<day>/<hex-digest>.jpg] of a storage
    key, from its five segments. *)
Definition key_of_segments (prefix y m d h : string) : string :=
  prefix +:+ "/" +:+ y +:+ "/" +:+ m +:+ "/" +:+ d +:+ "/" +:+ h +:+ ".jpg".

Fixpoint str_forallb (p : ascii → bool) (s : string) : bool :=
  match s with
  | EmptyString => true
  | String c s' => p c && str_forallb p s'
  end.

Definition is_digit (c : ascii) : bool := bool_decide (is_Some (digit_value c)).

(** ** Sample inputs *)

Definition now_morning : datetime :=
  {| year := 2026; month := 3; day := 7;
     hour := 9; minute := 15; second := 0; microsecond := 0 |}.
Definition now_evening : datetime :=
  {| year := 2026; month := 3; day := 7;
     hour := 23; minute := 59; second := 59; microsecond := 999999 |}.

Definition w0 : MemWorld := {| blobs := ∅; faults := [] |}.
Definition w_one : MemWorld :=
  {| blobs := {["k" := [Byte.x01]]}; faults := [] |}.
Definition self0 : @AzureBlobStorage MemSDK :=
  {| sas_url := "https://acct.blob.core.windows.net/photos?sv=2024&sig=abc";
     sas_token := "sv=2024&sig=abc";
     container_name := "photos";
     container_client := {| container_url := "https://acct.blob.core.windows.net/photos?sv=2024&sig=abc" |} |}.

(** ** Plain names

    A component of a key or of a path that is a plain name: not empty, not
    [.] or [..], and without a slash. *)
Definition is_name (c : string) : Prop :=
  c ≠ "" ∧ c ≠ "." ∧ c ≠ ".." ∧ "/"%char ∉ String.list_ascii_of_string c.

Global Instance is_name_dec c : Decision (is_name c).
Proof. unfold is_name. apply _. Defined.

(** A blob key made of plain names separated by slashes. *)
Definition plain_key (key : string) : Prop := Forall is_name (str_split "/" key).

(** ** Listing: [AzureBlobStorage.list_blobs]

    [ContainerClient.list_blobs(name_starts_with=...)] yields one properties
    object per blob; the adapter keeps each [name]. The iteration is one
    computation: it yields every item or raises. *)
Class ListingSDK `{sdk : SDK} : Type := {
  BlobProperties : Type;
  name : BlobProperties → string;
  sdk_list_blobs : ContainerClient → option string → M world (list BlobProperties);
}.

Definition list_blobs `{ListingSDK} (self : AzureBlobStorage)
    (prefix : option string) : M world (list string) :=
  blobs <- sdk_list_blobs (container_client self) prefix ;;
  ret (name <$> blobs).

(** Modelled from the spec: the listing of the memory container, all keys or
    those starting with the prefix, in an order of the backend's choosing. *)
Record MemBlobProperties : Type := { mem_name : string }.

Definition starts_with (prefix : option string) (key : string) : Prop :=
  match prefix with
  | None => True
  | Some p => Is_true (String.prefix p key)
  end.

Global Instance starts_with_dec prefix key : Decision (starts_with prefix key).
Proof. destruct prefix; apply _. Defined.

Definition mem_list_blobs (c : MemContainerClient) (name_starts_with : option string)
  : M MemWorld (list MemBlobProperties) :=
  request ;;;
  λ w, (Ok ((λ k, {| mem_name := k |})
              <$> filter (starts_with name_starts_with) (map_to_list (blobs w)).*1),
        w).

Global Instance MemListingSDK : @ListingSDK MemSDK := {|
  BlobProperties := MemBlobProperties;
  name := mem_name;
  sdk_list_blobs := mem_list_blobs;
|}.

(** ** Configuration: [src/config.py] and the factory [get_storage] *)

Module config.

(** [class Settings(BaseSettings)] and its field defaults *)
Record Settings : Type := {
  storage_type : string;
  azure_blob_name : string;
  sas_url : string;
  sas_token : string;
}.

Definition defaults : Settings :=
  {| storage_type := "azure"; azure_blob_name := ""; sas_url := ""; sas_token := "" |}.

(** [@lru_cache def get_settings(): return Settings()]. The cache of a
    function without arguments is one slot, filled by the first call that
    returns; [load] is the call [Settings()], which reads the environment. *)
Definition get_settings {W : Type} (load : M W Settings)
  : M (option Settings * W) Settings :=
  λ st, match st.1 with
        | Some cached => (Ok cached, st)
        | None =>
            match load st.2 with
            | (Ok fresh, w') => (Ok fresh, (Some fresh, w'))
            | (Raise e, w') => (Raise e, (None, w'))
            end
        end.

End config.

(** [get_storage]; [settings] is the module-level [settings = get_settings()]. *)
Definition get_storage `{sdk : SDK} (settings : config.Settings)
  : M world AzureBlobStorage :=
  init (config.sas_url settings) (config.sas_token settings)
    (config.azure_blob_name settings).

(** ** Local files: [upload_from_file] and [download_to_file] *)

(** The operating system's exceptions, and with them everything a call of the
    adapter can raise. *)
Inductive oserror : Type :=
  | FileNotFoundError
  | FileExistsError
  | IsADirectoryError
  | NotADirectoryError
  | PermissionError.

Inductive pyexn : Type :=
  | Exn (e : exn)
  | OSError (e : oserror).

Inductive outcome (A : Type) : Type :=
  | Returns (a : A)
  | Raises (e : pyexn).
Arguments Returns {A} a.
Arguments Raises {A} e.

Definition IO (W A : Type) : Type := W → outcome A * W.

Definition io_ret {W A} (a : A) : IO W A := λ w, (Returns a, w).

Definition io_bind {W A B} (m : IO W A) (k : A → IO W B) : IO W B :=
  λ w, match m w with
       | (Returns a, w') => k a w'
       | (Raises e, w') => (Raises e, w')
       end.

(** a call of a method of the adapter *)
Definition lift {W A} (m : M W A) : IO W A :=
  λ w, match m w with
       | (Ok a, w') => (Returns a, w')
       | (Raise e, w') => (Raises (Exn e), w')
       end.

(** [try: m  finally: cleanup]; an exception of the cleanup replaces the
    outcome of [m]. *)
Definition io_finally {W A} (m : IO W A) (cleanup : IO W unit) : IO W A :=
  λ w, match m w with
       | (r, w1) =>
           match cleanup w1 with
           | (Returns _, w2) => (r, w2)
           | (Raises e, w2) => (Raises e, w2)
           end
       end.

Notation "x <~ m ;; k" := (io_bind m (λ x, k))
  (at level 100, m at next level, right associativity).
Notation "m ;;~ k" := (io_bind m (λ _, k))
  (at level 100, right associativity).

(** [os.path.dirname] for POSIX paths:
    [head = p[:p.rfind('/')+1]], and [head.rstrip('/')] unless [head] is
    empty or made of slashes only. *)
Fixpoint drop_while {A} (p : A → bool) (l : list A) : list A :=
  match l with
  | [] => []
  | x :: l' => if p x then drop_while p l' else l
  end.

Definition is_sep (c : ascii) : bool := bool_decide (c = "/"%char).

Definition rstrip (p : ascii → bool) (l : list ascii) : list ascii :=
  reverse (drop_while p (reverse l)).

Definition posix_dirname (p : string) : string :=
  let head := rstrip (λ c, negb (is_sep c)) (String.list_ascii_of_string p) in
  if forallb is_sep head then String.string_of_list_ascii head
  else String.string_of_list_ascii (rstrip is_sep head).

(** What the with-statement and the [os] calls of the two methods need from
    the operating system. *)
Inductive open_mode : Type := rb | wb.

Class LocalOS `{sdk : SDK} : Type := {
  FileObject : Type;
  open_ : string → open_mode → IO world FileObject;
  file_read : FileObject → IO world bytes;
  file_write : FileObject → bytes → IO world Z;
  file_close : FileObject → IO world unit;
  os_path_abspath : string → IO world string;
  os_makedirs : string → bool → IO world unit;
}.

(** [with open(path, mode) as f: body] *)
Definition with_open `{LocalOS} {A} (path : string) (mode : open_mode)
    (body : FileObject → IO world A) : IO world A :=
  f <~ open_ path mode ;;
  io_finally (body f) (file_close f).

Definition upload_from_file `{LocalOS} (self : AzureBlobStorage)
    (source_path dest_path : string) : IO world string :=
  with_open source_path rb (λ f,
    data <~ file_read f ;;
    lift (upload self dest_path data)).

Definition download_to_file `{LocalOS} (self : AzureBlobStorage)
    (file_path dest_path : string) : IO world string :=
  absolute <~ os_path_abspath dest_path ;;
  os_makedirs (posix_dirname absolute) true ;;~
  blob_client <~ lift (get_blob_client (container_client self) file_path) ;;
  with_open dest_path wb (λ f,
    downloader <~ lift (download_blob blob_client) ;;
    data <~ lift (readall downloader) ;;
    file_write f data) ;;~
  io_ret dest_path.

(** ** More of [os.path]: [join], [normpath], [abspath]

    Modelled from the spec: [os.path] belongs to Python's library, not to
    [src/]. The three functions follow [posixpath], statement by statement;
    [abspath] is [normpath(join(os.getcwd(), path))] for a relative path. *)

Definition ends_with_sep (s : string) : bool :=
  match reverse (String.list_ascii_of_string s) with
  | c :: _ => is_sep c
  | [] => false
  end.

(** [os.path.join(a, b)] *)
Definition posix_join (a b : string) : string :=
  if String.prefix "/" b then b
  else if bool_decide (a = "") || ends_with_sep a then a +:+ b
  else a +:+ "/" +:+ b.

(** The loop of [normpath] over the components of the path; [new_comps] is
    held with its last component first. *)
Fixpoint normpath_loop (initial_slashes : nat) (new_comps comps : list string)
  : list string :=
  match comps with
  | [] => new_comps
  | comp :: comps' =>
      if bool_decide (comp = "" ∨ comp = ".") then
        normpath_loop initial_slashes new_comps comps'
      else if bool_decide (comp ≠ ".."
                           ∨ (initial_slashes = 0%nat ∧ new_comps = [])
                           ∨ head new_comps = Some "..") then
        normpath_loop initial_slashes (comp :: new_comps) comps'
      else normpath_loop initial_slashes (tail new_comps) comps'
  end.

(** [os.path.normpath] *)
Definition posix_normpath (path : string) : string :=
  if decide (path = "") then "."
  else
    let initial_slashes :=
      if String.prefix "/" path then
        if String.prefix "//" path && negb (String.prefix "///" path) then 2%nat
        else 1%nat
      else 0%nat in
    let comps := reverse (normpath_loop initial_slashes [] (str_split "/" path)) in
    let joined := str_repeat "/" initial_slashes +:+ String.concat "/" comps in
    if decide (joined = "") then "." else joined.

(** [os.path.abspath], with what [os.getcwd()] returns *)
Definition posix_abspath (getcwd path : string) : string :=
  posix_normpath (if String.prefix "/" path then path else posix_join getcwd path).

(** ** A host: the memory container beside a local file system

    Modelled from the spec: the operating system is no more part of [src/]
    than the SDK. A file or directory is known by its resolved path, the list
    of names that leads to it from the root. Regular files are a map from
    resolved path to content, directories a set of resolved paths, and the
    root is always a directory. A path given to [open] is resolved as the
    kernel does, component by component from the root or from the current
    directory, each step needing a directory to step from. Opening for
    reading needs the file; opening for writing creates or truncates it in an
    existing directory; [os.makedirs] makes the directory and every missing
    ancestor. There are no symbolic links. Any call may also fail for a
    reason outside the model (permissions, a full disk), by a script of
    pending faults as for the service. *)
Record HostWorld : Type := {
  cloud : MemWorld;
  files : gmap (list string) bytes;
  dirs : gset (list string);
  cwd : list string;
  os_faults : list (option oserror);
}.

Definition on_cloud {A} (m : M MemWorld A) : M HostWorld A :=
  λ h, match m (cloud h) with
       | (r, c) => (r, {| cloud := c; files := files h; dirs := dirs h;
                          cwd := cwd h; os_faults := os_faults h |})
       end.

Definition HostSDK : SDK := {|
  world := HostWorld;
  ContainerClient := MemContainerClient;
  BlobClient := MemBlobClient;
  StorageStreamDownloader := MemDownloader;
  from_container_url url := on_cloud (ret {| container_url := url |});
  get_blob_client _ key := on_cloud (ret {| blob_name := key |});
  upload_blob b data overwrite := on_cloud (mem_upload_blob b data overwrite);
  delete_blob b := on_cloud (mem_delete_blob b);
  blob_exists b := on_cloud (mem_blob_exists b);
  download_blob b := on_cloud (mem_download_blob b);
  readall d := on_cloud (ret (content d));
|}.

(** One call into the operating system: the next entry of the fault script
    decides whether it goes through. *)
Definition syscall : IO HostWorld unit :=
  λ h, match os_faults h with
       | [] => (Returns tt, h)
       | None :: fs =>
           (Returns tt, {| cloud := cloud h; files := files h; dirs := dirs h;
                           cwd := cwd h; os_faults := fs |})
       | Some e :: fs =>
           (Raises (OSError e),
            {| cloud := cloud h; files := files h; dirs := dirs h;
               cwd := cwd h; os_faults := fs |})
       end.

Definition set_files (f : gmap (list string) bytes → gmap (list string) bytes)
    (h : HostWorld) : HostWorld :=
  {| cloud := cloud h; files := f (files h); dirs := dirs h; cwd := cwd h;
     os_faults := os_faults h |}.

Definition set_dirs (f : gset (list string) → gset (list string)) (h : HostWorld)
  : HostWorld :=
  {| cloud := cloud h; files := files h; dirs := f (dirs h); cwd := cwd h;
     os_faults := os_faults h |}.

(** the text of a resolved path, as [os.getcwd()] gives it for the current
    directory *)
Definition abs_of (p : list string) : string := "/" +:+ String.concat "/" p.

Definition is_dir (h : HostWorld) (p : list string) : Prop := p = [] ∨ p ∈ dirs h.

(** One component of a path, from the directory [cur]. *)
Definition step (h : HostWorld) (cur : list string) (c : string)
  : oserror + list string :=
  if decide (is_dir h cur) then
    inr (if decide (c = "" ∨ c = ".") then cur
         else if decide (c = "..") then removelast cur
         else cur ++ [c])
  else if decide (is_Some (files h !! cur)) then inl NotADirectoryError
  else inl FileNotFoundError.

Fixpoint walk (h : HostWorld) (cur : list string) (comps : list string)
  : oserror + list string :=
  match comps with
  | [] => inr cur
  | c :: comps' =>
      match step h cur c with
      | inr next => walk h next comps'
      | inl e => inl e
      end
  end.

(** What a path names, or the error of its resolution. *)
Definition host_resolve (h : HostWorld) (path : string) : oserror + list string :=
  if decide (path = "") then inl FileNotFoundError
  else walk h (if String.prefix "/" path then [] else cwd h) (str_split "/" path).

(** The regular file that a path names, or the error of opening it for
    reading. *)
Definition host_find (h : HostWorld) (path : string) : oserror + list string :=
  match host_resolve h path with
  | inl e => inl e
  | inr r =>
      if decide (is_Some (files h !! r)) then inr r
      else if decide (is_dir h r) then inl IsADirectoryError
      else inl FileNotFoundError
  end.

(** The file that opening a path for writing creates or truncates; a path
    that ends in a slash cannot name one. *)
Definition host_create (h : HostWorld) (path : string) : oserror + list string :=
  if ends_with_sep path then
    let stripped :=
      String.string_of_list_ascii (rstrip is_sep (String.list_ascii_of_string path)) in
    if decide (stripped = "") then inl IsADirectoryError
    else match host_resolve h stripped with
         | inl e => inl e
         | inr r => if decide (is_Some (files h !! r)) then inl NotADirectoryError
                    else inl IsADirectoryError
         end
  else
    match host_resolve h path with
    | inl e => inl e
    | inr r =>
        if decide (is_dir h r) then inl IsADirectoryError
        else if decide (is_dir h (removelast r)) then inr r
        else if decide (is_Some (files h !! removelast r)) then inl NotADirectoryError
        else inl FileNotFoundError
    end.

Record HostFile : Type := { file_name : list string }.

Definition host_open (path : string) (mode : open_mode) : IO HostWorld HostFile :=
  syscall ;;~
  λ h, match mode with
       | rb =>
           match host_find h path with
           | inr r => (Returns {| file_name := r |}, h)
           | inl e => (Raises (OSError e), h)
           end
       | wb =>
           match host_create h path with
           | inr r => (Returns {| file_name := r |}, set_files <[r := []]> h)
           | inl e => (Raises (OSError e), h)
           end
       end.

Definition host_read (f : HostFile) : IO HostWorld bytes :=
  λ h, (Returns (default [] (files h !! file_name f)), h).

Definition host_write (f : HostFile) (data : bytes) : IO HostWorld Z :=
  λ h, (Returns (Z.of_nat (length data)),
        set_files <[file_name f := default [] (files h !! file_name f) ++ data]> h).

(** The resolved path that a path stands for when its components are taken
    by their text alone, as [os.path.abspath] takes them. *)
Definition lexical (cur : list string) (comps : list string) : list string :=
  fold_left (λ cur c, if decide (c = "" ∨ c = ".") then cur
                      else if decide (c = "..") then removelast cur
                      else cur ++ [c]) comps cur.

Definition host_target (h : HostWorld) (path : string) : list string :=
  lexical (if String.prefix "/" path then [] else cwd h) (str_split "/" path).

(** A resolved path and its ancestors, the root first. *)
Fixpoint prefixes {A} (l : list A) : list (list A) :=
  [] :: match l with
        | [] => []
        | x :: l' => (x ::.) <$> prefixes l'
        end.

(** [os.makedirs(d, exist_ok)]: fails where a regular file stands in the
    way, and otherwise leaves the directory and all its ancestors in place. *)
Definition host_makedirs (d : string) (exist_ok : bool) : IO HostWorld unit :=
  syscall ;;~
  λ h, if decide (d = "") then (Raises (OSError FileNotFoundError), h)
       else
         let t := host_target h d in
         if decide (is_Some (files h !! t)) then
           (Raises (OSError FileExistsError), h)
         else if decide (Exists (λ p, is_Some (files h !! p)) (prefixes t)) then
           (Raises (OSError NotADirectoryError), h)
         else if bool_decide (is_dir h t) && negb exist_ok then
           (Raises (OSError FileExistsError), h)
         else (Returns tt, set_dirs (λ ds, list_to_set (prefixes t) ∪ ds) h).

Definition HostOS : @LocalOS HostSDK :=
  @Build_LocalOS HostSDK
    HostFile                 (* FileObject *)
    host_open                (* open_ *)
    host_read                (* file_read *)
    host_write               (* file_write *)
    (λ _, io_ret tt)         (* file_close *)
    (λ path h, (Returns (posix_abspath (abs_of (cwd h)) path), h))
                             (* os_path_abspath *)
    host_makedirs            (* os_makedirs *).

(** The service and the operating system go through with every call still
    to come. *)
Definition host_reliable (h : HostWorld) : Prop :=
  reliable (cloud h) ∧ Forall (λ f, f = None) (os_faults h).

(** [path] is the plain names [cs] joined by slashes, from the root when
    [absolute] and from the current directory otherwise. *)
Definition plain_path (path : string) (absolute : bool) (cs : list string) : Prop :=
  cs ≠ [] ∧ Forall is_name cs
  ∧ path = (if absolute then "/" else "") +:+ String.concat "/" cs.

(** [path], made of plain names, can be created or overwritten in [h] once
    its parent directories are made: it names no directory, and no regular
    file stands where a directory is needed. *)
Definition creatable (h : HostWorld) (path : string) : Prop :=
  (∃ absolute cs, plain_path path absolute cs)
  ∧ Forall is_name (cwd h)
  ∧ ¬ is_dir h (host_target h path)
  ∧ Forall (λ p, files h !! p = None) (prefixes (removelast (host_target h path))).

(** The world after one entry of the fault script has been consumed. *)
Definition pop_faults (w : MemWorld) : MemWorld :=
  {| blobs := blobs w; faults := tail (faults w) |}.

Definition pop_os (h : HostWorld) : HostWorld :=
  {| cloud := cloud h; files := files h; dirs := dirs h; cwd := cwd h;
     os_faults := tail (os_faults h) |}.

(** ** Sample host *)

Definition host_self0 : @AzureBlobStorage HostSDK :=
  @Build_AzureBlobStorage HostSDK
    "https://acct.blob.core.windows.net/photos?sv=2024&sig=abc"
    "sv=2024&sig=abc"
    "photos"
    {| container_url := "https://acct.blob.core.windows.net/photos?sv=2024&sig=abc" |}.

Definition host0 : HostWorld :=
  {| cloud := w_one;
     files := {[ ["home"; "u"; "in.txt"] := [Byte.x68; Byte.x69] ]};
     dirs := {[ ["home"]; ["home"; "u"] ]};
     cwd := ["home"; "u"];
     os_faults := [] |}.

(** * Properties *)

(** ** The monad and the memory container *)

Section MonadFacts.
Context {W A B : Type}.

Lemma bind_ok (m : M W A) (k : A → M W B) w a w' :
  m w = (Ok a, w') → bind m k w = k a w'.
Proof. unfold bind. by intros ->. Qed.

Lemma bind_raise (m : M W A) (k : A → M W B) w e w' :
  m w = (Raise e, w') → bind m k w = (Raise e, w').
Proof. unfold bind. by intros ->. Qed.

Lemma try_except_ok (m : M W A) h w a w' :
  m w = (Ok a, w') → try_except m h w = (Ok a, w').
Proof. unfold try_except. by intros ->. Qed.

Lemma try_except_raise (m : M W A) h w e w' :
  m w = (Raise e, w') → try_except m h w = h e w'.
Proof. unfold try_except. by intros ->. Qed.
End MonadFacts.

Lemma request_reliable w :
  reliable w →
  ∃ w', request w = (Ok tt, w') ∧ blobs w' = blobs w ∧ reliable w'.
Proof.
  unfold reliable, request. intros Hw.
  destruct (faults w) as [|f fs] eqn:Hf.
  - exists w. by rewrite Hf.
  - inversion Hw as [|? ? Hhd Htl]; subst. eauto.
Qed.

Lemma request_fault w e fs :
  faults w = Some e :: fs →
  request w = (Raise e, {| blobs := blobs w; faults := fs |}).
Proof. unfold request. by intros ->. Qed.

Lemma mem_upload_blob_reliable b data w :
  reliable w →
  ∃ w', mem_upload_blob b data true w = (Ok tt, w')
        ∧ blobs w' = <[blob_name b := data]> (blobs w) ∧ reliable w'.
Proof.
  intros (w1 & Hreq & Hb & Hr)%request_reliable.
  unfold mem_upload_blob. rewrite (bind_ok _ _ _ _ _ Hreq).
  exists (set_blobs <[blob_name b := data]> w1).
  split; [by destruct (blobs w1 !! blob_name b)|].
  by rewrite <- Hb.
Qed.

Lemma mem_download_blob_reliable b w :
  reliable w →
  ∃ w', blobs w' = blobs w ∧ reliable w' ∧
        mem_download_blob b w =
          (match blobs w !! blob_name b with
           | Some data => Ok {| content := data |}
           | None => Raise ResourceNotFoundError
           end, w').
Proof.
  intros (w1 & Hreq & Hb & Hr)%request_reliable.
  unfold mem_download_blob. rewrite (bind_ok _ _ _ _ _ Hreq).
  exists w1. rewrite <- Hb. by destruct (blobs w1 !! blob_name b).
Qed.

Lemma mem_blob_exists_reliable b w :
  reliable w →
  ∃ w', blobs w' = blobs w ∧ reliable w' ∧
        mem_blob_exists b w =
          (Ok (bool_decide (is_Some (blobs w !! blob_name b))), w').
Proof.
  intros (w1 & Hreq & Hb & Hr)%request_reliable.
  unfold mem_blob_exists. rewrite (bind_ok _ _ _ _ _ Hreq).
  exists w1. by rewrite <- Hb.
Qed.

Lemma mem_delete_blob_present b w :
  reliable w → is_Some (blobs w !! blob_name b) →
  ∃ w', mem_delete_blob b w = (Ok tt, w')
        ∧ blobs w' = base.delete (blob_name b) (blobs w) ∧ reliable w'.
Proof.
  intros (w1 & Hreq & Hb & Hr)%request_reliable [d Hd].
  unfold mem_delete_blob. rewrite (bind_ok _ _ _ _ _ Hreq).
  rewrite <- Hb in Hd. rewrite Hd.
  exists (set_blobs (base.delete (blob_name b)) w1). by rewrite <- Hb.
Qed.

Lemma mem_delete_blob_absent b w :
  reliable w → blobs w !! blob_name b = None →
  ∃ w', mem_delete_blob b w = (Raise ResourceNotFoundError, w')
        ∧ blobs w' = blobs w ∧ reliable w'.
Proof.
  intros (w1 & Hreq & Hb & Hr)%request_reliable Hd.
  unfold mem_delete_blob. rewrite (bind_ok _ _ _ _ _ Hreq).
  rewrite <- Hb in Hd. rewrite Hd. eauto.
Qed.

(** ** The adapter on the memory container *)

Section OnMemory.
Implicit Types (self : @AzureBlobStorage MemSDK) (w : MemWorld).

Lemma upload_reliable self K data w :
  reliable w →
  ∃ w', upload self K data w = (Ok K, w')
        ∧ blobs w' = <[K := data]> (blobs w) ∧ reliable w'.
Proof.
  intros (w1 & Hup & Hb & Hr)%(mem_upload_blob_reliable {| blob_name := K |} data).
  exists w1. split; [|done].
  unfold upload; cbn. by rewrite (bind_ok _ _ _ _ _ Hup).
Qed.

Lemma download_reliable self K w :
  reliable w →
  ∃ w', blobs w' = blobs w ∧ reliable w' ∧
        download self K w =
          (match blobs w !! K with
           | Some data => Ok data
           | None => Raise ResourceNotFoundError
           end, w').
Proof.
  intros (w1 & Hb & Hr & Hdl)%(mem_download_blob_reliable {| blob_name := K |}).
  exists w1. do 2 (split; [done|]).
  unfold download; cbn. unfold bind. rewrite Hdl; cbn.
  by destruct (blobs w !! K).
Qed.

Lemma exists_reliable self K w :
  reliable w →
  ∃ w', blobs w' = blobs w ∧ reliable w' ∧
        exists_ self K w = (Ok (bool_decide (is_Some (blobs w !! K))), w').
Proof.
  intros (w1 & Hb & Hr & Hex)%(mem_blob_exists_reliable {| blob_name := K |}).
  exists w1. do 2 (split; [done|]).
  unfold exists_; cbn. exact Hex.
Qed.
End OnMemory.

(** C1. Round trip: on a container whose service answers, [upload K B]
    followed by [download K] returns exactly [B], for every key [K] and every
    byte sequence [B]. *)
Theorem upload_download_roundtrip
    (self : @AzureBlobStorage MemSDK) (K : string) (B : bytes) (w : MemWorld) :
  reliable w →
  ∃ w1 w2, upload self K B w = (Ok K, w1)
           ∧ download self K w1 = (Ok B, w2)
           ∧ (upload self K B ;;; download self K) w = (Ok B, w2)
           ∧ blobs w2 = <[K := B]> (blobs w).
Proof.
  intros (w1 & Hup & Hb1 & Hr1)%(upload_reliable self K B).
  destruct (download_reliable self K w1 Hr1) as (w2 & Hb2 & Hr2 & Hdl).
  rewrite Hb1, lookup_insert_eq in Hdl.
  exists w1, w2. repeat split; try done.
  - by rewrite (bind_ok _ _ _ _ _ Hup).
  - by rewrite Hb2.
Qed.

Lemma upload_download_roundtrip_witness :
  ∃ w1 w2, upload self0 "a/b.txt" [Byte.x68; Byte.x69] w0 = (Ok "a/b.txt", w1)
           ∧ download self0 "a/b.txt" w1 = (Ok [Byte.x68; Byte.x69], w2)
           ∧ (upload self0 "a/b.txt" [Byte.x68; Byte.x69] ;;; download self0 "a/b.txt") w0
             = (Ok [Byte.x68; Byte.x69], w2)
           ∧ blobs w2 = <["a/b.txt" := [Byte.x68; Byte.x69]]> (blobs w0).
Proof. apply (upload_download_roundtrip self0 "a/b.txt" _ w0). constructor. Defined.

(** C7. Last write wins: on a container whose service answers, [upload K B1]
    then [upload K B2] leaves [download K] returning [B2], whatever the
    container held under [K] before; each [upload] returns the key it was
    given. *)
Theorem upload_overwrites
    (self : @AzureBlobStorage MemSDK) (K : string) (B1 B2 : bytes) (w : MemWorld) :
  reliable w →
  ∃ w1 w2 w3, upload self K B1 w = (Ok K, w1)
              ∧ upload self K B2 w1 = (Ok K, w2)
              ∧ download self K w2 = (Ok B2, w3)
              ∧ blobs w3 = <[K := B2]> (blobs w).
Proof.
  intros (w1 & Hup1 & Hb1 & Hr1)%(upload_reliable self K B1).
  destruct (upload_reliable self K B2 w1 Hr1) as (w2 & Hup2 & Hb2 & Hr2).
  destruct (download_reliable self K w2 Hr2) as (w3 & Hb3 & Hr3 & Hdl).
  rewrite Hb2, lookup_insert_eq in Hdl.
  exists w1, w2, w3. repeat split; try done.
  by rewrite Hb3, Hb2, Hb1, insert_insert_eq.
Qed.

Lemma upload_overwrites_witness :
  ∃ w1 w2 w3, upload self0 "k" [Byte.x01] w0 = (Ok "k", w1)
              ∧ upload self0 "k" [Byte.x02; Byte.x03] w1 = (Ok "k", w2)
              ∧ download self0 "k" w2 = (Ok [Byte.x02; Byte.x03], w3)
              ∧ blobs w3 = <["k" := [Byte.x02; Byte.x03]]> (blobs w0).
Proof. apply (upload_overwrites self0 "k" _ _ w0). constructor. Defined.

(** ** [delete] and [exists]: the two error policies *)

Lemma delete_outcome `{sdk : SDK} (self : AzureBlobStorage) K (w : world) :
  delete self K w =
    match (blob_client <- get_blob_client (container_client self) K ;;
           delete_blob blob_client) w with
    | (Ok _, w') => (Ok true, w')
    | (Raise _, w') => (Ok false, w')
    end.
Proof.
  unfold delete, try_except, bind, ret.
  destruct (get_blob_client _ _ _) as [[bc|e] w1]; [|done].
  by destruct (delete_blob bc w1) as [[[]|e] w2].
Qed.

Lemma delete_fault (self : @AzureBlobStorage MemSDK) K w e fs :
  faults w = Some e :: fs →
  delete self K w = (Ok false, {| blobs := blobs w; faults := fs |}).
Proof.
  intros Hf. rewrite delete_outcome; cbn.
  unfold mem_delete_blob. by rewrite (bind_raise _ _ _ _ _ (request_fault _ _ _ Hf)).
Qed.

Lemma exists_fault (self : @AzureBlobStorage MemSDK) K w e fs :
  faults w = Some e :: fs →
  exists_ self K w = (Raise e, {| blobs := blobs w; faults := fs |}).
Proof.
  intros Hf. unfold exists_; cbn.
  unfold mem_blob_exists. by rewrite (bind_raise _ _ _ _ _ (request_fault _ _ _ Hf)).
Qed.

(** C3. [delete] never lets an exception out: whatever the backend does, it
    returns [True] when the deletion went through and [False] when anything
    was raised. On the memory container: a pending fault of any kind gives
    [False]; an absent key gives [False] and changes nothing; a present key
    gives [True], and [exists] is [False] afterwards. *)
Theorem delete_swallows_every_exception :
  (∀ (sdk : SDK) (self : AzureBlobStorage) (K : string) (w : world),
     (∃ b w', delete self K w = (Ok b, w'))
     ∧ ∀ r w', (blob_client <- get_blob_client (container_client self) K ;;
                delete_blob blob_client) w = (r, w') →
               delete self K w = (Ok (if r is Ok _ then true else false), w'))
  ∧ (∀ (self : @AzureBlobStorage MemSDK) K w e fs,
       faults w = Some e :: fs →
       delete self K w = (Ok false, {| blobs := blobs w; faults := fs |}))
  ∧ (∀ (self : @AzureBlobStorage MemSDK) K w,
       reliable w → blobs w !! K = None →
       ∃ w', delete self K w = (Ok false, w') ∧ blobs w' = blobs w)
  ∧ (∀ (self : @AzureBlobStorage MemSDK) K w,
       reliable w → is_Some (blobs w !! K) →
       ∃ w' w'', delete self K w = (Ok true, w')
                 ∧ blobs w' = base.delete K (blobs w)
                 ∧ exists_ self K w' = (Ok false, w'')).
Proof.
  split; [|split; [|split]].
  - intros sdk self K w. split.
    + rewrite delete_outcome. destruct (bind _ _ w) as [[[]|e] w']; eauto.
    + intros r w' Hrun. rewrite delete_outcome, Hrun. by destruct r.
  - intros self K w e fs Hf. exact (delete_fault _ _ _ _ _ Hf).
  - intros self K w Hr Hnone.
    destruct (mem_delete_blob_absent {| blob_name := K |} w Hr Hnone)
      as (w' & Hdel & Hb & _).
    exists w'. split; [|done]. rewrite delete_outcome; cbn. by rewrite Hdel.
  - intros self K w Hr Hsome.
    destruct (mem_delete_blob_present {| blob_name := K |} w Hr Hsome)
      as (w' & Hdel & Hb & Hr').
    destruct (exists_reliable self K w' Hr') as (w'' & _ & _ & Hex).
    exists w', w''. split; [|split; [done|]].
    + rewrite delete_outcome; cbn. by rewrite Hdel.
    + rewrite Hex, Hb, lookup_delete_eq. by rewrite bool_decide_eq_false_2 by by intros [].
Qed.

Lemma delete_swallows_every_exception_witness :
  delete self0 "k" {| blobs := ∅; faults := [Some ServiceRequestError] |}
    = (Ok false, w0)
  ∧ (∃ w', delete self0 "k" w0 = (Ok false, w') ∧ blobs w' = blobs w0)
  ∧ (∃ w' w'', delete self0 "k" w_one = (Ok true, w')
               ∧ blobs w' = base.delete "k" (blobs w_one)
               ∧ exists_ self0 "k" w' = (Ok false, w'')).
Proof.
  destruct delete_swallows_every_exception as (_ & Hfault & Habsent & Hpresent).
  split; [|split].
  - exact (Hfault self0 "k" {| blobs := ∅; faults := [Some ServiceRequestError] |}
             ServiceRequestError [] eq_refl).
  - apply (Habsent self0 "k" w0); [constructor|done].
  - apply (Hpresent self0 "k" w_one); [constructor|].
    cbn. rewrite lookup_singleton_eq. eauto.
Defined.

(** C8. [exists] has no handler: an exception raised by the backend while the
    check runs reaches the caller as it is, where [delete] would have answered
    [False]; when the backend answers, [exists] is [True] exactly when a blob
    is stored under the key. *)
Theorem exists_propagates_backend_errors :
  (∀ (sdk : SDK) (self : AzureBlobStorage) (K : string) (w : world),
     (∀ e w', get_blob_client (container_client self) K w = (Raise e, w') →
              exists_ self K w = (Raise e, w'))
     ∧ (∀ bc w1 r w2, get_blob_client (container_client self) K w = (Ok bc, w1) →
                      blob_exists bc w1 = (r, w2) →
                      exists_ self K w = (r, w2)))
  ∧ (∀ (self : @AzureBlobStorage MemSDK) K w e fs,
       faults w = Some e :: fs →
       exists_ self K w = (Raise e, {| blobs := blobs w; faults := fs |})
       ∧ delete self K w = (Ok false, {| blobs := blobs w; faults := fs |}))
  ∧ (∀ (self : @AzureBlobStorage MemSDK) K w,
       reliable w →
       ∃ b w', exists_ self K w = (Ok b, w')
               ∧ (b = true ↔ is_Some (blobs w !! K))
               ∧ blobs w' = blobs w).
Proof.
  split; [|split].
  - intros sdk self K w. split.
    + intros e w' Hget. unfold exists_. by rewrite (bind_raise _ _ _ _ _ Hget).
    + intros bc w1 r w2 Hget Hex. unfold exists_.
      by rewrite (bind_ok _ _ _ _ _ Hget).
  - intros self K w e fs Hf. split; [exact (exists_fault _ _ _ _ _ Hf)|exact (delete_fault _ _ _ _ _ Hf)].
  - intros self K w Hr.
    destruct (exists_reliable self K w Hr) as (w' & Hb & _ & Hex).
    exists (bool_decide (is_Some (blobs w !! K))), w'.
    split; [done|split; [|done]]. apply bool_decide_eq_true.
Qed.

Lemma exists_propagates_backend_errors_witness :
  (exists_ self0 "k" {| blobs := ∅; faults := [Some ClientAuthenticationError] |}
     = (Raise ClientAuthenticationError, w0)
   ∧ delete self0 "k" {| blobs := ∅; faults := [Some ClientAuthenticationError] |}
     = (Ok false, w0))
  ∧ ∃ b w', exists_ self0 "k" w0 = (Ok b, w')
            ∧ (b = true ↔ is_Some (blobs w0 !! "k"))
            ∧ blobs w' = blobs w0.
Proof.
  destruct exists_propagates_backend_errors as (_ & Hfault & Hanswer).
  split.
  - exact (Hfault self0 "k" {| blobs := ∅; faults := [Some ClientAuthenticationError] |}
             ClientAuthenticationError [] eq_refl).
  - apply (Hanswer self0 "k" w0). constructor.
Defined.

(** ** Strings *)

Lemma app_cons c (s t : string) : String c s +:+ t = String c (s +:+ t).
Proof. reflexivity. Qed.

Lemma app_nil_l (t : string) : "" +:+ t = t.
Proof. reflexivity. Qed.

Lemma app_nil_r (s : string) : s +:+ "" = s.
Proof. induction s as [|c s IH]; [done|]. by rewrite app_cons, IH. Qed.

Lemma app_assoc (s t u : string) : (s +:+ t) +:+ u = s +:+ t +:+ u.
Proof. induction s as [|c s IH]; [done|]. by rewrite !app_cons, IH. Qed.

Lemma app_length (s t : string) :
  String.length (s +:+ t) = (String.length s + String.length t)%nat.
Proof. induction s as [|c s IH]; [done|]. rewrite app_cons. cbn. by rewrite IH. Qed.

(** ** [get_url]: string construction only *)

Lemma str_split_strip_query s :
  ∃ tl, str_split "?" s = strip_query s :: tl.
Proof.
  induction s as [|c s [tl IH]]; cbn; [by eexists|].
  destruct (decide (c = "?"%char)); [by eexists|].
  rewrite IH. by eexists.
Qed.

Lemma strip_query_decompose s :
  ∃ rest, s = strip_query s +:+ rest ∧ (rest = "" ∨ ∃ r, rest = String "?" r).
Proof.
  induction s as [|c s (rest & IH & Hrest)]; cbn.
  - exists "". auto.
  - destruct (decide (c = "?"%char)) as [->|].
    + exists (String "?" s). eauto.
    + exists rest. split; [|done]. by rewrite app_cons, <- IH.
Qed.

Lemma strip_query_no_qmark s :
  "?"%char ∉ String.list_ascii_of_string (strip_query s).
Proof.
  induction s as [|c s IH]; cbn; [by apply not_elem_of_nil|].
  destruct (decide (c = "?"%char)); cbn; [by apply not_elem_of_nil|].
  apply not_elem_of_cons. auto.
Qed.

Lemma get_url_value `{sdk : SDK} (self : AzureBlobStorage) K expiry_hours w :
  get_url self K expiry_hours w
  = (Ok (strip_query (sas_url self) +:+ "/" +:+ K +:+ "?" +:+ sas_token self), w).
Proof.
  unfold get_url. by destruct (str_split_strip_query (sas_url self)) as [tl ->].
Qed.

Lemma get_url_fields `{sdk : SDK} (s1 s2 : AzureBlobStorage) K e1 e2 w :
  sas_url s1 = sas_url s2 → sas_token s1 = sas_token s2 →
  get_url s1 K e1 w = get_url s2 K e2 w.
Proof. intros Hu Ht. rewrite !get_url_value. by rewrite Hu, Ht. Qed.

Lemma init_fields `{sdk : SDK} url tok name w (s : AzureBlobStorage) w' :
  init url tok name w = (Ok s, w') →
  sas_url s = url ∧ sas_token s = tok ∧ container_name s = name.
Proof.
  unfold init, bind, ret.
  destruct (from_container_url url w) as [[client|e] w1]; [|done].
  by intros [= <- _].
Qed.

(** C2. [get_url K] is the SAS base URL cut at its first '?', then "/", the
    key, "?" and the SAS token. It returns without raising, leaves the world
    as it was, and gives the same URL whether or not a blob is stored under
    the key. *)
Theorem get_url_concatenates :
  (∀ (sdk : SDK) (self : AzureBlobStorage) (K : string) (expiry_hours : Z),
     let base := strip_query (sas_url self) in
     (∃ rest, sas_url self = base +:+ rest
              ∧ (rest = "" ∨ ∃ r, rest = String "?" r))
     ∧ ("?"%char ∉ String.list_ascii_of_string base)
     ∧ ∀ w : world,
         get_url self K expiry_hours w
         = (Ok (base +:+ "/" +:+ K +:+ "?" +:+ sas_token self), w))
  ∧ (∀ (self : @AzureBlobStorage MemSDK) K expiry_hours (w1 w2 : MemWorld),
       blobs w1 !! K = None → is_Some (blobs w2 !! K) →
       ∃ url, get_url self K expiry_hours w1 = (Ok url, w1)
              ∧ get_url self K expiry_hours w2 = (Ok url, w2)).
Proof.
  split.
  - intros sdk self K e base. split; [apply strip_query_decompose|].
    split; [apply strip_query_no_qmark|]. intros w. apply get_url_value.
  - intros self K e w1 w2 _ _. eexists. by rewrite !get_url_value.
Qed.

Lemma get_url_concatenates_witness :
  ∃ url, get_url self0 "k" 24 w0 = (Ok url, w0)
         ∧ get_url self0 "k" 24 w_one = (Ok url, w_one).
Proof.
  destruct get_url_concatenates as [_ H].
  apply (H self0 "k" 24 w0 w_one); [done|].
  cbn. rewrite lookup_singleton_eq. eauto.
Defined.

(** C6. The [expiry_hours] argument has no effect: for every key, any two
    values of it give the same URL. *)
Theorem get_url_ignores_expiry_hours `{sdk : SDK}
    (self : AzureBlobStorage) (K : string) (e1 e2 : Z) (w : world) :
  get_url self K e1 w = get_url self K e2 w.
Proof. by rewrite !get_url_value. Qed.

(** C10. The URL depends on the adapter only through its [sas_url] and
    [sas_token]: two adapters constructed from the same SAS URL and token but
    different container names return the same URL for every key and every
    [expiry_hours]. *)
Theorem get_url_ignores_container_name :
  ∀ (sdk : SDK),
    (∀ (s1 s2 : AzureBlobStorage) K e1 e2 (w : world),
       sas_url s1 = sas_url s2 → sas_token s1 = sas_token s2 →
       get_url s1 K e1 w = get_url s2 K e2 w)
    ∧ (∀ url tok name1 name2 (wa wb wa' wb' : world) (s1 s2 : AzureBlobStorage),
         init url tok name1 wa = (Ok s1, wa') →
         init url tok name2 wb = (Ok s2, wb') →
         container_name s1 = name1 ∧ container_name s2 = name2
         ∧ ∀ K e1 e2 (w : world), get_url s1 K e1 w = get_url s2 K e2 w).
Proof.
  intros sdk. split.
  - intros. by apply get_url_fields.
  - intros url tok name1 name2 wa wb wa' wb' s1 s2
      (Hu1 & Ht1 & Hn1)%init_fields (Hu2 & Ht2 & Hn2)%init_fields.
    do 2 (split; [done|]). intros K e1 e2 w.
    apply get_url_fields; congruence.
Qed.

Lemma get_url_ignores_container_name_witness :
  ∃ s1 s2 : @AzureBlobStorage MemSDK,
    container_name s1 = "photos" ∧ container_name s2 = "videos"
    ∧ ∀ K e1 e2 (w : MemWorld), get_url s1 K e1 w = get_url s2 K e2 w.
Proof.
  destruct (get_url_ignores_container_name MemSDK) as [_ H].
  eexists _, _.
  apply (H "https://acct.blob.core.windows.net/photos?sv=2024" "sv=2024"
           "photos" "videos" w0 w0 w0 w0); reflexivity.
Defined.

Example get_url_self0 :
  get_url self0 "test_folder/subfolder/hello_blob.txt" 24 w0
  = (Ok "https://acct.blob.core.windows.net/photos/test_folder/subfolder/hello_blob.txt?sv=2024&sig=abc",
     w0).
Proof. reflexivity. Qed.

(** ** Decimal text *)

Lemma digit_value_char d : (d < 10)%N → digit_value (digit_char d) = Some d.
Proof.
  intros Hd. unfold digit_value, digit_char.
  rewrite N_ascii_embedding by lia.
  replace (48 <=? 48 + d)%N with true by (symmetry; apply N.leb_le; lia).
  replace (48 + d <=? 57)%N with true by (symmetry; apply N.leb_le; lia).
  cbn. f_equal. lia.
Qed.

Lemma digits_aux_S fuel n acc :
  digits_aux (S fuel) n acc =
    if (n <? 10)%N then String (digit_char (n mod 10)) acc
    else digits_aux fuel (n / 10) (String (digit_char (n mod 10)) acc).
Proof. reflexivity. Qed.

Lemma digits_aux_app fuel n acc :
  digits_aux fuel n acc = digits_aux fuel n "" +:+ acc.
Proof.
  revert n acc. induction fuel as [|fuel IH]; intros n acc; cbn; [done|].
  destruct (n <? 10)%N; [done|].
  rewrite IH, (IH _ (String _ "")). by rewrite app_assoc.
Qed.

Lemma div10_lt_pow2 n f :
  (n < 2 ^ N.of_nat (S (S f)))%N → (n / 10 < 2 ^ N.of_nat (S f))%N.
Proof.
  intros Hn. apply N.Div0.div_lt_upper_bound.
  rewrite (Nat2N.inj_succ (S f)), N.pow_succ_r' in Hn. lia.
Qed.

Lemma digits_aux_fuel f1 f2 n acc :
  (n < 2 ^ N.of_nat (S f1))%N → (n < 2 ^ N.of_nat (S f2))%N →
  digits_aux (S f1) n acc = digits_aux (S f2) n acc.
Proof.
  revert f2 n acc. induction f1 as [|f1 IH]; intros f2 n acc H1 H2.
  - cbn in H1. cbn [digits_aux].
    by replace (n <? 10)%N with true by (symmetry; apply N.ltb_lt; lia).
  - cbn [digits_aux]. destruct (n <? 10)%N eqn:Hlt; [done|].
    apply N.ltb_ge in Hlt. destruct f2 as [|f2]; [cbn in H2; lia|].
    apply IH; by apply div10_lt_pow2.
Qed.

Lemma lt_pow2_log2 n : (n < 2 ^ N.of_nat (S (N.to_nat (N.log2 n))))%N.
Proof.
  rewrite Nat2N.inj_succ, N2Nat.id.
  destruct (N.eq_dec n 0%N) as [->|Hn]; [done|].
  apply N.log2_spec. lia.
Qed.

Lemma str_N_fuel f n :
  (n < 2 ^ N.of_nat (S f))%N → str_N n = digits_aux (S f) n "".
Proof. intros Hn. apply digits_aux_fuel; [apply lt_pow2_log2|done]. Qed.

Lemma str_N_small n : (n < 10)%N → str_N n = String (digit_char n) "".
Proof.
  intros Hn. unfold str_N. cbn [digits_aux].
  replace (n <? 10)%N with true by (symmetry; apply N.ltb_lt; lia).
  by rewrite N.mod_small.
Qed.

Lemma str_N_step n :
  (10 ≤ n)%N → str_N n = str_N (n / 10) +:+ String (digit_char (n mod 10)) "".
Proof.
  intros Hn. pose proof (lt_pow2_log2 n) as Hf. unfold str_N at 1.
  destruct (N.to_nat (N.log2 n)) as [|f]; [cbn in Hf; lia|].
  rewrite digits_aux_S.
  replace (n <? 10)%N with false by (symmetry; apply N.ltb_ge; lia).
  rewrite digits_aux_app. f_equal. symmetry.
  by apply str_N_fuel, div10_lt_pow2.
Qed.

Lemma parse_digits_app_digit acc s d v :
  (d < 10)%N → parse_digits acc s = Some v →
  parse_digits acc (s +:+ String (digit_char d) "") = Some (10 * v + d)%N.
Proof.
  intros Hd. revert acc. induction s as [|c s IH]; intros acc; cbn.
  - intros [= ->]. rewrite app_nil_l. cbn. by rewrite digit_value_char.
  - rewrite app_cons. cbn. destruct (digit_value c); [apply IH|done].
Qed.

Lemma parse_str_N n : parse_digits 0 (str_N n) = Some n.
Proof.
  induction n as [n IH] using (well_founded_induction N.lt_wf_0).
  destruct (N.lt_ge_cases n 10) as [Hlt|Hge].
  - rewrite str_N_small by done. cbn. by rewrite digit_value_char.
  - rewrite str_N_step by done.
    rewrite (parse_digits_app_digit 0 _ (n mod 10) (n / 10)).
    + f_equal. pose proof (N.div_mod n 10). lia.
    + apply N.mod_lt. lia.
    + apply IH. apply N.div_lt; lia.
Qed.

Lemma parse_zero_pad width s :
  parse_digits 0 (zero_pad width s) = parse_digits 0 s.
Proof.
  unfold zero_pad. induction (width - String.length s)%nat as [|k IH]; [done|].
  cbn [str_repeat]. rewrite app_cons. cbn. exact IH.
Qed.

Lemma str_N_nonempty n : str_N n ≠ "".
Proof.
  destruct (N.lt_ge_cases n 10) as [Hlt|Hge].
  - by rewrite str_N_small.
  - rewrite str_N_step by done. by destruct (str_N (n / 10)).
Qed.

Lemma zero_pad_nonempty width s : s ≠ "" → zero_pad width s ≠ "".
Proof.
  unfold zero_pad. intros Hs.
  by destruct (str_repeat "0" (width - String.length s)); [|rewrite app_cons].
Qed.

Lemma int_of_str_digits s v :
  s ≠ "" → parse_digits 0 s = Some v → int_of_str s = Some (Z.of_N v).
Proof.
  destruct s as [|c s]; [done|]. intros _ Hp. unfold int_of_str.
  destruct (decide (c = "-"%char)) as [->|]; [done|]. by rewrite Hp.
Qed.

Lemma int_of_str_minus s v :
  s ≠ "" → parse_digits 0 s = Some v →
  int_of_str ("-" +:+ s) = Some (- Z.of_N v).
Proof.
  intros Hs Hp. change ("-" +:+ s) with (String "-" s). unfold int_of_str.
  rewrite decide_True by done. destruct s; [done|]. by rewrite Hp.
Qed.

Lemma int_of_str_int n : int_of_str (str_int n) = Some n.
Proof.
  unfold str_int. destruct (n <? 0) eqn:Hn.
  - apply Z.ltb_lt in Hn.
    rewrite (int_of_str_minus _ _ (str_N_nonempty _) (parse_str_N _)).
    f_equal. lia.
  - apply Z.ltb_ge in Hn.
    rewrite (int_of_str_digits _ _ (str_N_nonempty _) (parse_str_N _)).
    f_equal. lia.
Qed.

Lemma int_of_format_0d width n : int_of_str (format_0d width n) = Some n.
Proof.
  unfold format_0d. destruct (n <? 0) eqn:Hn.
  - apply Z.ltb_lt in Hn. rewrite (int_of_str_minus _ (Z.abs_N n)).
    + f_equal. lia.
    + apply zero_pad_nonempty, str_N_nonempty.
    + rewrite parse_zero_pad. apply parse_str_N.
  - apply Z.ltb_ge in Hn. rewrite (int_of_str_digits _ (Z.abs_N n)).
    + f_equal. lia.
    + apply zero_pad_nonempty, str_N_nonempty.
    + rewrite parse_zero_pad. apply parse_str_N.
Qed.

Lemma app_inv_tail (s1 s2 t : string) : s1 +:+ t = s2 +:+ t → s1 = s2.
Proof.
  intros Heq.
  assert (String.length s1 = String.length s2) as Hlen.
  { apply (f_equal String.length) in Heq. rewrite !app_length in Heq.
    by apply Nat.add_cancel_r in Heq. }
  revert s2 Heq Hlen. induction s1 as [|c s1 IH]; intros [|c' s2]; try done.
  rewrite !app_cons. intros [= -> Heq] [= Hlen]. f_equal. by apply IH.
Qed.

Lemma str_forallb_app p (s t : string) :
  str_forallb p (s +:+ t) = str_forallb p s && str_forallb p t.
Proof.
  induction s as [|c s IH]; [done|]. rewrite app_cons. cbn.
  by rewrite IH, andb_assoc.
Qed.

Lemma is_digit_char d : (d < 10)%N → is_digit (digit_char d) = true.
Proof.
  intros Hd. unfold is_digit. rewrite digit_value_char by done.
  by apply bool_decide_eq_true.
Qed.

Lemma div10_bounds n lo hi :
  (10 * lo ≤ n < 10 * hi)%N → (lo ≤ n / 10 < hi)%N.
Proof.
  intros Hn.
  pose proof (N.div_mod n 10 ltac:(lia)) as Hdiv.
  pose proof (N.mod_lt n 10 ltac:(lia)) as Hmod.
  set (q := (n / 10)%N) in *. set (r := (n mod 10)%N) in *. lia.
Qed.

Lemma str_N_digits n : str_forallb is_digit (str_N n) = true.
Proof.
  induction n as [n IH] using (well_founded_induction N.lt_wf_0).
  destruct (N.lt_ge_cases n 10) as [Hlt|Hge].
  - rewrite str_N_small by done. cbn. by rewrite is_digit_char.
  - rewrite str_N_step, str_forallb_app by done.
    rewrite IH by (apply N.div_lt; lia). cbn [str_forallb andb].
    rewrite is_digit_char; [done|]. apply N.mod_lt. lia.
Qed.

Lemma str_N_head_nonzero n c s :
  (0 < n)%N → str_N n = String c s → c ≠ "0"%char.
Proof.
  revert c s. induction n as [n IH] using (well_founded_induction N.lt_wf_0).
  intros c s Hpos. destruct (N.lt_ge_cases n 10) as [Hlt|Hge].
  - rewrite str_N_small by done. intros [= <- _] Hzero.
    pose proof (digit_value_char n Hlt) as Hv. rewrite Hzero in Hv.
    cbn in Hv. injection Hv. lia.
  - rewrite str_N_step by done.
    destruct (str_N (n / 10)) as [|c' s'] eqn:Hq;
      [by destruct (str_N_nonempty (n / 10))|].
    rewrite app_cons. intros [= <- _].
    apply (IH (n / 10)%N) with s'; [apply N.div_lt; lia| |done].
    pose proof (div10_bounds n 1 (n + 1)%N). lia.
Qed.

Lemma str_N_length_4 n :
  (1000 ≤ n < 10000)%N → String.length (str_N n) = 4%nat.
Proof.
  intros Hn.
  pose proof (div10_bounds n 100 1000 ltac:(lia)) as H1.
  pose proof (div10_bounds (n / 10) 10 100 ltac:(lia)) as H2.
  pose proof (div10_bounds (n / 10 / 10) 1 10 ltac:(lia)) as H3.
  rewrite (str_N_step n), (str_N_step (n / 10)), (str_N_step (n / 10 / 10)),
    (str_N_small (n / 10 / 10 / 10)) by lia.
  by rewrite !app_length.
Qed.

Lemma format_0d_2_one_digit n :
  0 ≤ n < 10 →
  format_0d 2 n = String "0" (String (digit_char (Z.to_N n)) "").
Proof.
  intros Hn. unfold format_0d.
  replace (n <? 0) with false by (symmetry; apply Z.ltb_ge; lia).
  rewrite Zabs2N.abs_N_nonneg, str_N_small by lia. reflexivity.
Qed.

Lemma format_0d_2_two_digits n :
  10 ≤ n < 100 →
  format_0d 2 n = String (digit_char (Z.to_N n / 10))
                    (String (digit_char (Z.to_N n mod 10)) "").
Proof.
  intros Hn. unfold format_0d.
  replace (n <? 0) with false by (symmetry; apply Z.ltb_ge; lia).
  rewrite Zabs2N.abs_N_nonneg by lia.
  pose proof (div10_bounds (Z.to_N n) 1 10 ltac:(lia)).
  rewrite str_N_step, str_N_small by lia. reflexivity.
Qed.

Lemma format_0d_2_width n :
  0 ≤ n < 100 →
  String.length (format_0d 2 n) = 2%nat
  ∧ str_forallb is_digit (format_0d 2 n) = true.
Proof.
  intros Hn. destruct (Z.lt_ge_cases n 10) as [Hlt|Hge].
  - rewrite format_0d_2_one_digit by lia. split; [done|].
    cbn. rewrite is_digit_char by lia. done.
  - rewrite format_0d_2_two_digits by lia. split; [done|].
    pose proof (div10_bounds (Z.to_N n) 1 10 ltac:(lia)).
    pose proof (N.mod_lt (Z.to_N n) 10 ltac:(lia)).
    cbn. by rewrite !is_digit_char by lia.
Qed.

(** ** Hexadecimal text and the digest *)

Lemma hex_byte (b : byte) :
  hex_value (hex_char (Byte.to_N b / 16)) = Some (Byte.to_N b / 16)%N
  ∧ hex_value (hex_char (Byte.to_N b mod 16)) = Some (Byte.to_N b mod 16)%N
  ∧ byte_of_N (16 * (Byte.to_N b / 16) + Byte.to_N b mod 16) = b.
Proof. destruct b; vm_compute; done. Qed.

Lemma unhexlify_hexlify d : unhexlify (hexlify d) = Some d.
Proof.
  induction d as [|b d IH]; [done|].
  destruct (hex_byte b) as (Hh & Hl & Hb).
  cbn [hexlify unhexlify]. by rewrite Hh, Hl, IH, Hb.
Qed.

Lemma hexlify_inj d1 d2 : hexlify d1 = hexlify d2 → d1 = d2.
Proof.
  intros Heq. apply (f_equal unhexlify) in Heq.
  rewrite !unhexlify_hexlify in Heq. by injection Heq.
Qed.

Lemma hexlify_length d : String.length (hexlify d) = (2 * length d)%nat.
Proof. induction d as [|b d IH]; [done|]. cbn [hexlify String.length length]. lia. Qed.

Lemma hexlify_lower d : str_forallb is_lower_hex (hexlify d) = true.
Proof.
  induction d as [|b d IH]; [done|].
  destruct (hex_byte b) as (Hh & Hl & _).
  cbn [hexlify str_forallb]. unfold is_lower_hex at 1 2. rewrite Hh, Hl, IH.
  by rewrite !bool_decide_eq_true_2 by eauto.
Qed.

Lemma md5_length data : length (MD5.md5 data) = 16%nat.
Proof. unfold MD5.md5. by destruct (MD5.digest_state _). Qed.

Lemma hexdigest_length data : String.length (MD5.hexdigest data) = 32%nat.
Proof. unfold MD5.hexdigest. by rewrite hexlify_length, md5_length. Qed.

(** [hashlib]'s digests of the RFC 1321 test suite, and of two messages that
    fill one block and spill into a second. *)
Example md5_empty :
  MD5.hexdigest (String.list_byte_of_string "") = "d41d8cd98f00b204e9800998ecf8427e".
Proof. vm_compute. reflexivity. Qed.

Example md5_abc :
  MD5.hexdigest (String.list_byte_of_string "abc") = "900150983cd24fb0d6963f7d28e17f72".
Proof. vm_compute. reflexivity. Qed.

Example md5_message_digest :
  MD5.hexdigest (String.list_byte_of_string "message digest") = "f96b697d7cb7938d525a2f31aaf161d0".
Proof. vm_compute. reflexivity. Qed.

Example md5_eighty_digits :
  MD5.hexdigest
    (String.list_byte_of_string
       "12345678901234567890123456789012345678901234567890123456789012345678901234567890")
  = "57edf4a22be3c955ac49da2e2107b67a".
Proof. vm_compute. reflexivity. Qed.

Example md5_56_bytes :
  MD5.hexdigest
    (String.list_byte_of_string "aaaaaaaaaaaaaaaaaaaaaaaaaaaaaaaaaaaaaaaaaaaaaaaaaaaaaaaa")
  = "3b0c8ac703f828b04c6c197006d17218".
Proof. vm_compute. reflexivity. Qed.

(** ** [str.encode()] *)

Example encode_examples :
  encode (text "A") = Ok [Byte.x41]
  ∧ encode [0xE9%N] = Ok [Byte.xc3; Byte.xa9]
  ∧ encode [0x20AC%N] = Ok [Byte.xe2; Byte.x82; Byte.xac]
  ∧ encode [0x1F600%N] = Ok [Byte.xf0; Byte.x9f; Byte.x98; Byte.x80]
  ∧ encode [0x10FFFF%N] = Ok [Byte.xf4; Byte.x8f; Byte.xbf; Byte.xbf]
  ∧ encode [0x61%N; 0xDFFF%N; 0x62%N] = Raise UnicodeEncodeError.
Proof. vm_compute. done. Qed.

Lemma encode_encodable url : encodable url → ∃ data, encode url = Ok data.
Proof. unfold encode, encodable. intros ->. by eexists. Qed.

Lemma encode_ok url data : encode url = Ok data → encodable url.
Proof. unfold encode, encodable. by destruct (existsb _ _). Qed.

Lemma encode_surrogate url :
  ¬ encodable url → encode url = Raise UnicodeEncodeError.
Proof. unfold encode, encodable. by destruct (existsb _ _). Qed.

(** ** [generate_storage_path] *)

Example generate_storage_path_cat :
  generate_storage_path now_morning (text "https://example.com/cat.jpg")
    default_prefix
  = Ok "processed/2026/03/07/c52000873ea33e72fb89929688eee8cb.jpg".
Proof. vm_compute. reflexivity. Qed.

Example generate_storage_path_accent :
  generate_storage_path now_morning (text "https://ex.com/caf" ++ [0xE9%N] ++ text ".jpg")
    default_prefix
  = Ok "processed/2026/03/07/3de3817129802055c97a55aae23a06cd.jpg".
Proof. vm_compute. reflexivity. Qed.

Lemma generate_storage_path_segments now source_url prefix data :
  encode source_url = Ok data →
  generate_storage_path now source_url prefix
  = Ok (key_of_segments prefix (str_int (year now)) (format_0d 2 (month now))
          (format_0d 2 (day now)) (hexlify (MD5.md5 data))).
Proof. unfold generate_storage_path. by intros ->. Qed.

Lemma generate_storage_path_raises now source_url prefix e :
  encode source_url = Raise e →
  generate_storage_path now source_url prefix = Raise e.
Proof. unfold generate_storage_path. by intros ->. Qed.

Lemma generate_storage_path_ok now source_url prefix key :
  generate_storage_path now source_url prefix = Ok key →
  ∃ data, encode source_url = Ok data.
Proof.
  unfold generate_storage_path. destruct (encode source_url); [by eexists|done].
Qed.

Lemma key_of_segments_hash_inj prefix y m d h1 h2 :
  key_of_segments prefix y m d h1 = key_of_segments prefix y m d h2 → h1 = h2.
Proof.
  unfold key_of_segments. intros Heq.
  do 8 apply (inj (String.app _)) in Heq.
  by apply app_inv_tail in Heq.
Qed.




(** C5. On one UTC calendar day, the same source URL and prefix give the
    identical outcome, hence the identical key; two source URLs whose hashes
    differ give different keys that share the prefix and the three date
    segments. *)
Theorem generate_storage_path_same_day
    (now1 now2 : datetime) (url1 url2 : pystr) (prefix : string) :
  same_utc_day now1 now2 →
  (url1 = url2 →
   generate_storage_path now1 url1 prefix = generate_storage_path now2 url2 prefix)
  ∧ (∀ data1 data2 : bytes,
       encode url1 = Ok data1 → encode url2 = Ok data2 →
       MD5.md5 data1 ≠ MD5.md5 data2 →
       generate_storage_path now1 url1 prefix ≠ generate_storage_path now2 url2 prefix
       ∧ ∃ y m d h1 h2 : string,
           generate_storage_path now1 url1 prefix
             = Ok (key_of_segments prefix y m d h1)
           ∧ generate_storage_path now2 url2 prefix
             = Ok (key_of_segments prefix y m d h2)
           ∧ h1 ≠ h2
           ∧ key_of_segments prefix y m d h1 ≠ key_of_segments prefix y m d h2).
Proof.
  intros (Hy & Hm & Hd). split.
  - intros ->. unfold generate_storage_path. by rewrite Hy, Hm, Hd.
  - intros data1 data2 Henc1 Henc2 Hne.
    rewrite (generate_storage_path_segments _ _ _ _ Henc1),
      (generate_storage_path_segments _ _ _ _ Henc2).
    rewrite Hy, Hm, Hd.
    assert (hexlify (MD5.md5 data1) ≠ hexlify (MD5.md5 data2))
      as Hhex by (by intros ?%hexlify_inj).
    assert (∀ y m d, key_of_segments prefix y m d (hexlify (MD5.md5 data1))
                     ≠ key_of_segments prefix y m d (hexlify (MD5.md5 data2)))
      as Hkey by (by intros y m d ?%key_of_segments_hash_inj).
    split; [intros [= Heq]; by apply Hkey in Heq|].
    by eexists _, _, _, _, _.
Qed.

Lemma generate_storage_path_same_day_witness :
  generate_storage_path now_morning (text "https://example.com/cat.jpg") default_prefix
  = generate_storage_path now_evening (text "https://example.com/cat.jpg") default_prefix
  ∧ generate_storage_path now_morning (text "https://example.com/cat.jpg") default_prefix
    ≠ generate_storage_path now_evening (text "https://example.com/dog.jpg") default_prefix.
Proof.
  split.
  - by apply (generate_storage_path_same_day now_morning now_evening
                (text "https://example.com/cat.jpg")
                (text "https://example.com/cat.jpg")).
  - eapply (generate_storage_path_same_day now_morning now_evening
              (text "https://example.com/cat.jpg")
              (text "https://example.com/dog.jpg"));
      [done|vm_compute; reflexivity|vm_compute; reflexivity|].
    vm_compute. discriminate.
Defined.

(** C9. For a date in the range of Python's [datetime], every key that
    [generate_storage_path] produces (it produces one for every URL that
    encodes) has month and day segments of exactly two decimal digits
    (zero-padded), a year segment that is the decimal text of the year
    without padding (four digits from year 1000 on), and a digest segment of
    32 lowercase hex characters. *)
Theorem generate_storage_path_segment_widths
    (now : datetime) (source_url : pystr) (prefix : string) :
  valid_date now →
  (encodable source_url →
   ∃ key, generate_storage_path now source_url prefix = Ok key)
  ∧ ∀ key : string,
      generate_storage_path now source_url prefix = Ok key →
      ∃ y m d h : string,
        key = key_of_segments prefix y m d h
        ∧ (int_of_str y = Some (year now) ∧ str_forallb is_digit y = true
           ∧ (∀ c s, y = String c s → c ≠ "0"%char)
           ∧ (1000 ≤ year now → String.length y = 4%nat))
        ∧ (int_of_str m = Some (month now) ∧ str_forallb is_digit m = true
           ∧ String.length m = 2%nat)
        ∧ (int_of_str d = Some (day now) ∧ str_forallb is_digit d = true
           ∧ String.length d = 2%nat)
        ∧ (String.length h = 32%nat ∧ str_forallb is_lower_hex h = true).
Proof.
  intros (Hy & Hm & Hd). split.
  { intros [data Henc]%encode_encodable. eexists.
    by apply generate_storage_path_segments. }
  intros key Hkey.
  destruct (generate_storage_path_ok _ _ _ _ Hkey) as [data Henc].
  rewrite (generate_storage_path_segments _ _ _ _ Henc) in Hkey.
  injection Hkey as <-.
  eexists _, _, _, _. split; [reflexivity|].
  assert (str_int (year now) = str_N (Z.to_N (year now))) as Hstr.
  { unfold str_int.
    replace (year now <? 0) with false by (symmetry; apply Z.ltb_ge; lia).
    by rewrite Zabs2N.abs_N_nonneg by lia. }
  split; [|split; [|split]].
  - split; [apply int_of_str_int|]. rewrite Hstr.
    split; [apply str_N_digits|]. split.
    + intros c s. apply str_N_head_nonzero. lia.
    + intros Hy4. apply str_N_length_4. lia.
  - destruct (format_0d_2_width (month now)) as [Hlen Hdig]; [lia|].
    split; [apply int_of_format_0d|done].
  - destruct (format_0d_2_width (day now)) as [Hlen Hdig]; [lia|].
    split; [apply int_of_format_0d|done].
  - split; [apply hexdigest_length|apply hexlify_lower].
Qed.

Lemma generate_storage_path_segment_widths_witness :
  ∃ y m d h : string,
    "processed/2026/03/07/c52000873ea33e72fb89929688eee8cb.jpg"
    = key_of_segments default_prefix y m d h
    ∧ (int_of_str y = Some 2026 ∧ str_forallb is_digit y = true
       ∧ (∀ c s, y = String c s → c ≠ "0"%char)
       ∧ (1000 ≤ 2026 → String.length y = 4%nat))
    ∧ (int_of_str m = Some 3 ∧ str_forallb is_digit m = true
       ∧ String.length m = 2%nat)
    ∧ (int_of_str d = Some 7 ∧ str_forallb is_digit d = true
       ∧ String.length d = 2%nat)
    ∧ (String.length h = 32%nat ∧ str_forallb is_lower_hex h = true).
Proof.
  apply (generate_storage_path_segment_widths now_morning
           (text "https://example.com/cat.jpg") default_prefix).
  - unfold valid_date; cbn. lia.
  - vm_compute. reflexivity.
Defined.

(** ** The calls of the manual script [src/test_blob.py], in its order *)

Example str_split_examples :
  str_split "?" "a?b?c" = ["a"; "b"; "c"]
  ∧ str_split "?" "" = [""]
  ∧ str_split "?" "a?" = ["a"; ""]
  ∧ str_split "?" "no-query" = ["no-query"].
Proof. done. Qed.

Example script_run :
  let blob_path := "test_folder/subfolder/hello_blob.txt" in
  let test_content :=
    String.list_byte_of_string "Hello, Azure Blob World! This is a test file." in
  fst ((store <- init "https://acct.blob.core.windows.net/photos?sv=2024"
                   "sv=2024" "photos" ;;
        uploaded_path <- upload store blob_path test_content ;;
        present <- exists_ store blob_path ;;
        got <- download store blob_path ;;
        deleted <- delete store blob_path ;;
        present_after <- exists_ store blob_path ;;
        deleted_again <- delete store blob_path ;;
        ret (uploaded_path, present, got,
             deleted, present_after, deleted_again)) w0)
  = Ok (blob_path, true, test_content, true, false, false).
Proof. vm_compute. reflexivity. Qed.

(** * Further properties of the adapter *)

(** ** Errors of [download] and [upload] *)

Lemma download_fault (self : @AzureBlobStorage MemSDK) K w e fs :
  faults w = Some e :: fs →
  download self K w = (Raise e, {| blobs := blobs w; faults := fs |}).
Proof.
  intros Hf. unfold download; cbn. unfold mem_download_blob, bind at 1.
  by rewrite (bind_raise _ _ _ _ _ (request_fault _ _ _ Hf)).
Qed.

Lemma upload_fault (self : @AzureBlobStorage MemSDK) K data w e fs :
  faults w = Some e :: fs →
  upload self K data w = (Raise e, {| blobs := blobs w; faults := fs |}).
Proof.
  intros Hf. unfold upload; cbn. unfold mem_upload_blob, bind at 1.
  by rewrite (bind_raise _ _ _ _ _ (request_fault _ _ _ Hf)).
Qed.

Lemma delete_reliable (self : @AzureBlobStorage MemSDK) K w :
  reliable w →
  ∃ w', delete self K w = (Ok (bool_decide (is_Some (blobs w !! K))), w')
        ∧ blobs w' = base.delete K (blobs w) ∧ reliable w'.
Proof.
  intros Hr. rewrite delete_outcome; cbn.
  destruct (blobs w !! K) as [d|] eqn:Hk.
  - destruct (mem_delete_blob_present {| blob_name := K |} w Hr)
      as (w' & Hdel & Hb & Hr'); [by eexists|].
    exists w'. rewrite Hdel. by rewrite bool_decide_eq_true_2 by eauto.
  - destruct (mem_delete_blob_absent {| blob_name := K |} w Hr Hk)
      as (w' & Hdel & Hb & Hr').
    exists w'. rewrite Hdel, Hb, delete_id by done.
    by rewrite bool_decide_eq_false_2 by by intros [].
Qed.

(** X1. [download] has no handler. Whatever the backend raises while the blob
    client is obtained, the download is started or the stream is read comes
    out unchanged; on the memory container a pending fault comes out as it
    is, and an absent key gives the not-found error with the blobs untouched. *)
Theorem download_propagates_errors :
  (∀ (sdk : SDK) (self : AzureBlobStorage) (K : string) (w : world),
     (∀ e w', get_blob_client (container_client self) K w = (Raise e, w') →
              download self K w = (Raise e, w'))
     ∧ (∀ bc w1 e w2, get_blob_client (container_client self) K w = (Ok bc, w1) →
                      download_blob bc w1 = (Raise e, w2) →
                      download self K w = (Raise e, w2))
     ∧ (∀ bc w1 d w2 r w3, get_blob_client (container_client self) K w = (Ok bc, w1) →
                           download_blob bc w1 = (Ok d, w2) →
                           readall d w2 = (r, w3) →
                           download self K w = (r, w3)))
  ∧ (∀ (self : @AzureBlobStorage MemSDK) K w e fs,
       faults w = Some e :: fs →
       download self K w = (Raise e, {| blobs := blobs w; faults := fs |}))
  ∧ (∀ (self : @AzureBlobStorage MemSDK) K w,
       reliable w → blobs w !! K = None →
       ∃ w', download self K w = (Raise ResourceNotFoundError, w')
             ∧ blobs w' = blobs w).
Proof.
  split; [|split].
  - intros sdk self K w. split; [|split].
    + intros e w' Hget. unfold download. by rewrite (bind_raise _ _ _ _ _ Hget).
    + intros bc w1 e w2 Hget Hdl. unfold download.
      rewrite (bind_ok _ _ _ _ _ Hget). by rewrite (bind_raise _ _ _ _ _ Hdl).
    + intros bc w1 d w2 r w3 Hget Hdl Hread. unfold download.
      rewrite (bind_ok _ _ _ _ _ Hget). by rewrite (bind_ok _ _ _ _ _ Hdl).
  - intros self K w e fs Hf. exact (download_fault _ _ _ _ _ Hf).
  - intros self K w Hr Hk.
    destruct (download_reliable self K w Hr) as (w' & Hb & _ & Hdl).
    exists w'. by rewrite Hdl, Hk.
Qed.

Lemma download_propagates_errors_witness :
  download self0 "k" {| blobs := ∅; faults := [Some HttpResponseError] |}
    = (Raise HttpResponseError, w0)
  ∧ ∃ w', download self0 "missing" w_one = (Raise ResourceNotFoundError, w')
          ∧ blobs w' = blobs w_one.
Proof.
  destruct download_propagates_errors as (_ & Hfault & Habsent). split.
  - exact (Hfault self0 "k" {| blobs := ∅; faults := [Some HttpResponseError] |}
             HttpResponseError [] eq_refl).
  - apply (Habsent self0 "missing" w_one); [constructor|done].
Defined.

(** X2. [upload] has no handler either: an exception of the backend comes out
    unchanged and no key is returned; on the memory container a pending fault
    leaves the blobs as they were. *)
Theorem upload_propagates_errors :
  (∀ (sdk : SDK) (self : AzureBlobStorage) (K : string) (data : bytes) (w : world),
     (∀ e w', get_blob_client (container_client self) K w = (Raise e, w') →
              upload self K data w = (Raise e, w'))
     ∧ (∀ bc w1 e w2, get_blob_client (container_client self) K w = (Ok bc, w1) →
                      upload_blob bc data true w1 = (Raise e, w2) →
                      upload self K data w = (Raise e, w2))
     ∧ (∀ bc w1 w2, get_blob_client (container_client self) K w = (Ok bc, w1) →
                    upload_blob bc data true w1 = (Ok tt, w2) →
                    upload self K data w = (Ok K, w2)))
  ∧ (∀ (self : @AzureBlobStorage MemSDK) K data w e fs,
       faults w = Some e :: fs →
       upload self K data w = (Raise e, {| blobs := blobs w; faults := fs |})).
Proof.
  split.
  - intros sdk self K data w. split; [|split].
    + intros e w' Hget. unfold upload. by rewrite (bind_raise _ _ _ _ _ Hget).
    + intros bc w1 e w2 Hget Hup. unfold upload.
      rewrite (bind_ok _ _ _ _ _ Hget). by rewrite (bind_raise _ _ _ _ _ Hup).
    + intros bc w1 w2 Hget Hup. unfold upload.
      rewrite (bind_ok _ _ _ _ _ Hget). by rewrite (bind_ok _ _ _ _ _ Hup).
  - intros self K data w e fs Hf. exact (upload_fault _ _ _ _ _ _ Hf).
Qed.

Lemma upload_propagates_errors_witness :
  upload self0 "k" [Byte.x01]
    {| blobs := blobs w_one; faults := [Some ServiceRequestError] |}
  = (Raise ServiceRequestError, w_one).
Proof.
  destruct upload_propagates_errors as [_ Hfault].
  exact (Hfault self0 "k" [Byte.x01]
           {| blobs := blobs w_one; faults := [Some ServiceRequestError] |}
           ServiceRequestError [] eq_refl).
Defined.

(** ** The life of a blob *)



(** ** [get_url] inserts the key as it is *)

Lemma strip_query_app_clean (a b : string) :
  "?"%char ∉ String.list_ascii_of_string a →
  strip_query (a +:+ b) = a +:+ strip_query b.
Proof.
  induction a as [|c a IH]; [done|]. cbn [String.list_ascii_of_string].
  intros [Hc Ha]%not_elem_of_cons. rewrite !app_cons. cbn [strip_query].
  rewrite decide_False by done. by rewrite IH.
Qed.

Lemma strip_query_clean (s : string) :
  "?"%char ∉ String.list_ascii_of_string s ↔ strip_query s = s.
Proof.
  split.
  - intros Hs. rewrite <- (app_nil_r s) at 1.
    rewrite strip_query_app_clean by done. apply app_nil_r.
  - intros <-. apply strip_query_no_qmark.
Qed.

(** X5. The key goes into the URL verbatim, without escaping: cutting the
    returned URL at its first '?' gives back [<base>/<key>] exactly when the
    key holds no '?', and then what follows the '?' is the SAS token. *)
Theorem get_url_key_verbatim `{sdk : SDK}
    (self : AzureBlobStorage) (K : string) (expiry_hours : Z) (w : world) :
  ∃ url,
    get_url self K expiry_hours w = (Ok url, w)
    ∧ ("?"%char ∉ String.list_ascii_of_string K
       ↔ strip_query url = strip_query (sas_url self) +:+ "/" +:+ K)
    ∧ ("?"%char ∉ String.list_ascii_of_string K →
       url = strip_query url +:+ "?" +:+ sas_token self).
Proof.
  eexists. split; [apply get_url_value|].
  set (base := strip_query (sas_url self)).
  assert (strip_query (base +:+ "/" +:+ K +:+ "?" +:+ sas_token self)
          = base +:+ "/" +:+ strip_query (K +:+ "?" +:+ sas_token self)) as Hcut.
  { rewrite strip_query_app_clean by apply strip_query_no_qmark. reflexivity. }
  assert ("?"%char ∉ String.list_ascii_of_string K →
          strip_query (K +:+ "?" +:+ sas_token self) = K) as Hclean.
  { intros HK. rewrite strip_query_app_clean by done. apply app_nil_r. }
  rewrite Hcut. split; [split|].
  - intros HK. by rewrite Hclean.
  - intros Heq. do 2 apply (inj (String.app _)) in Heq.
    rewrite <- Heq. apply strip_query_no_qmark.
  - intros HK. rewrite Hclean by done. by rewrite !app_assoc.
Qed.

Lemma get_url_key_verbatim_witness :
  ∃ url,
    get_url self0 "a/b.txt" 24 w0 = (Ok url, w0)
    ∧ ("?"%char ∉ String.list_ascii_of_string "a/b.txt"
       ↔ strip_query url = strip_query (sas_url self0) +:+ "/" +:+ "a/b.txt")
    ∧ ("?"%char ∉ String.list_ascii_of_string "a/b.txt" →
       url = strip_query url +:+ "?" +:+ sas_token self0).
Proof. apply (get_url_key_verbatim self0 "a/b.txt" 24 w0). Defined.

Example get_url_key_with_query :
  get_url self0 "a?b" 24 w0
  = (Ok "https://acct.blob.core.windows.net/photos/a?b?sv=2024&sig=abc", w0).
Proof. reflexivity. Qed.

(** ** [generate_storage_path] separates days and digests *)

Lemma str_forallb_elem p (s : string) c :
  str_forallb p s = true → c ∈ String.list_ascii_of_string s → p c = true.
Proof.
  induction s as [|c' s IH]; cbn; [by intros _ ?%elem_of_nil|].
  intros [Hc Hs]%andb_prop [->|Hin]%elem_of_cons; auto.
Qed.

Lemma digits_no_slash (s : string) :
  str_forallb is_digit s = true → "/"%char ∉ String.list_ascii_of_string s.
Proof. intros Hs Hin. by pose proof (str_forallb_elem _ _ _ Hs Hin). Qed.

Lemma minus_no_slash (s : string) :
  "/"%char ∉ String.list_ascii_of_string s →
  "/"%char ∉ String.list_ascii_of_string ("-" +:+ s).
Proof. intros Hs. apply not_elem_of_cons. by split. Qed.

Lemma zero_pad_digits width (s : string) :
  str_forallb is_digit s = true → str_forallb is_digit (zero_pad width s) = true.
Proof.
  intros Hs. unfold zero_pad. rewrite str_forallb_app, Hs, andb_true_r.
  by induction (width - String.length s)%nat.
Qed.

Lemma str_int_no_slash n : "/"%char ∉ String.list_ascii_of_string (str_int n).
Proof.
  unfold str_int. destruct (n <? 0); [apply minus_no_slash|];
    apply digits_no_slash, str_N_digits.
Qed.

Lemma format_0d_no_slash width n :
  "/"%char ∉ String.list_ascii_of_string (format_0d width n).
Proof.
  unfold format_0d. destruct (n <? 0); [apply minus_no_slash|];
    apply digits_no_slash, zero_pad_digits, str_N_digits.
Qed.

Lemma app_slash_unique (a b r s : string) :
  "/"%char ∉ String.list_ascii_of_string a →
  "/"%char ∉ String.list_ascii_of_string b →
  a +:+ "/" +:+ r = b +:+ "/" +:+ s → a = b ∧ r = s.
Proof.
  revert b. induction a as [|c a IH]; intros [|c' b]; cbn [String.list_ascii_of_string];
    rewrite ?app_cons, ?app_nil_l.
  - by intros _ _ [= ->].
  - intros _ [Hc _]%not_elem_of_cons [= <- _]. done.
  - intros [Hc _]%not_elem_of_cons _ [= -> _]. done.
  - intros [_ Ha]%not_elem_of_cons [_ Hb]%not_elem_of_cons [= -> Heq].
    destruct (IH b Ha Hb Heq) as [-> ->]. done.
Qed.

(** X6. For one prefix the key tells the day and the digest apart: for two
    URLs that encode, the two keys produced are equal exactly when the clock
    readings agree on year, month and day and the two URLs have the same MD5
    digest. Different days never share a key, whatever the integers in the
    date fields. *)
Theorem generate_storage_path_injective
    (now1 now2 : datetime) (url1 url2 : pystr) (prefix : string)
    (data1 data2 : bytes) :
  encode url1 = Ok data1 → encode url2 = Ok data2 →
  ∃ key1 key2 : string,
    generate_storage_path now1 url1 prefix = Ok key1
    ∧ generate_storage_path now2 url2 prefix = Ok key2
    ∧ (key1 = key2
       ↔ same_utc_day now1 now2 ∧ MD5.md5 data1 = MD5.md5 data2)
    ∧ (generate_storage_path now1 url1 prefix
         = generate_storage_path now2 url2 prefix
       ↔ same_utc_day now1 now2 ∧ MD5.md5 data1 = MD5.md5 data2).
Proof.
  intros Henc1 Henc2.
  rewrite (generate_storage_path_segments _ _ _ _ Henc1),
    (generate_storage_path_segments _ _ _ _ Henc2).
  eexists _, _. do 2 (split; [reflexivity|]).
  assert (key_of_segments prefix (str_int (year now1)) (format_0d 2 (month now1))
            (format_0d 2 (day now1)) (hexlify (MD5.md5 data1))
          = key_of_segments prefix (str_int (year now2)) (format_0d 2 (month now2))
              (format_0d 2 (day now2)) (hexlify (MD5.md5 data2))
          ↔ same_utc_day now1 now2 ∧ MD5.md5 data1 = MD5.md5 data2) as Hiff.
  { unfold key_of_segments. split.
    - intros Heq. do 2 apply (inj (String.app _)) in Heq.
      apply app_slash_unique in Heq as [Hy Heq]; [|apply str_int_no_slash..].
      apply app_slash_unique in Heq as [Hm Heq]; [|apply format_0d_no_slash..].
      apply app_slash_unique in Heq as [Hd Heq]; [|apply format_0d_no_slash..].
      apply app_inv_tail, hexlify_inj in Heq.
      apply (f_equal int_of_str) in Hy, Hm, Hd.
      rewrite !int_of_str_int in Hy. rewrite !int_of_format_0d in Hm, Hd.
      split; [|done]. unfold same_utc_day. by simplify_eq.
    - intros [(Hy & Hm & Hd) Hh]. by rewrite Hy, Hm, Hd, Hh. }
  split; [done|]. rewrite <- Hiff. split; [by intros [=]|by intros ->].
Qed.

Lemma generate_storage_path_injective_witness :
  ∃ key1 key2 : string,
    generate_storage_path now_morning (text "https://example.com/cat.jpg")
      default_prefix = Ok key1
    ∧ generate_storage_path now_evening (text "https://example.com/dog.jpg")
        default_prefix = Ok key2
    ∧ (key1 = key2
       ↔ same_utc_day now_morning now_evening
         ∧ MD5.md5 (String.list_byte_of_string "https://example.com/cat.jpg")
           = MD5.md5 (String.list_byte_of_string "https://example.com/dog.jpg"))
    ∧ (generate_storage_path now_morning (text "https://example.com/cat.jpg")
         default_prefix
       = generate_storage_path now_evening (text "https://example.com/dog.jpg")
           default_prefix
       ↔ same_utc_day now_morning now_evening
         ∧ MD5.md5 (String.list_byte_of_string "https://example.com/cat.jpg")
           = MD5.md5 (String.list_byte_of_string "https://example.com/dog.jpg")).
Proof.
  apply (generate_storage_path_injective now_morning now_evening
           (text "https://example.com/cat.jpg") (text "https://example.com/dog.jpg")
           default_prefix);
    vm_compute; reflexivity.
Defined.

Example generate_storage_path_day_and_month :
  generate_storage_path
    {| year := 2026; month := 1; day := 11; hour := 0; minute := 0; second := 0;
       microsecond := 0 |} (text "u") default_prefix
  ≠ generate_storage_path
      {| year := 2026; month := 11; day := 1; hour := 0; minute := 0; second := 0;
         microsecond := 0 |} (text "u") default_prefix.
Proof. vm_compute. discriminate. Qed.

(** ** [list_blobs] *)

Lemma list_blobs_reliable (self : @AzureBlobStorage MemSDK) prefix w :
  reliable w →
  ∃ w', list_blobs self prefix w
        = (Ok (filter (starts_with prefix) (map_to_list (blobs w)).*1), w')
        ∧ blobs w' = blobs w ∧ reliable w'.
Proof.
  intros (w1 & Hreq & Hb & Hr)%request_reliable.
  exists w1. split; [|done].
  unfold list_blobs; cbn. unfold mem_list_blobs, bind.
  rewrite Hreq, Hb. cbn. unfold ret. do 2 f_equal.
  rewrite <- list_fmap_compose. exact (list_fmap_id _).
Qed.

Lemma elem_of_listing prefix (m : gmap string bytes) k :
  k ∈ filter (starts_with prefix) (map_to_list m).*1
  ↔ is_Some (m !! k) ∧ starts_with prefix k.
Proof.
  rewrite list_elem_of_filter, list_elem_of_fmap. split.
  - intros [Hp ([k' d] & -> & Hin%elem_of_map_to_list)]. eauto.
  - intros [[d Hd] Hp]. split; [done|].
    exists (k, d). split; [done|]. by apply elem_of_map_to_list.
Qed.

(** X7. [list_blobs] returns the stored keys that start with the prefix, each
    of them once, and all stored keys when no prefix is given; the container
    is left as it was. *)
Theorem list_blobs_exact
    (self : @AzureBlobStorage MemSDK) (prefix : option string) (w : MemWorld) :
  reliable w →
  ∃ names w',
    list_blobs self prefix w = (Ok names, w')
    ∧ NoDup names
    ∧ (∀ k, k ∈ names ↔ is_Some (blobs w !! k) ∧ starts_with prefix k)
    ∧ blobs w' = blobs w.
Proof.
  intros (w' & Hls & Hb & _)%(list_blobs_reliable self prefix).
  eexists _, w'. split; [exact Hls|]. split; [|split; [|done]].
  - apply NoDup_filter, NoDup_fst_map_to_list.
  - intros k. apply elem_of_listing.
Qed.

Lemma list_blobs_exact_witness :
  ∃ names w',
    list_blobs self0 (Some "k") w_one = (Ok names, w')
    ∧ NoDup names
    ∧ (∀ k, k ∈ names ↔ is_Some (blobs w_one !! k) ∧ starts_with (Some "k") k)
    ∧ blobs w' = blobs w_one.
Proof. apply (list_blobs_exact self0 (Some "k") w_one). constructor. Defined.

(** X8. Listing follows the other operations, for a key made of plain names
    separated by slashes (no empty, [.] or [..] component) and while the
    service goes through: such a key just uploaded is in every listing whose
    prefix it starts with, and once deleted it is in none. *)
Theorem list_blobs_after_upload_and_delete
    (self : @AzureBlobStorage MemSDK) (K : string) (data : bytes)
    (prefix : option string) (w : MemWorld) :
  reliable w → plain_key K → starts_with prefix K →
  ∃ w1 names1 w2 w3 names2 w4,
    upload self K data w = (Ok K, w1)
    ∧ list_blobs self prefix w1 = (Ok names1, w2) ∧ K ∈ names1
    ∧ delete self K w2 = (Ok true, w3)
    ∧ list_blobs self prefix w3 = (Ok names2, w4) ∧ (K ∉ names2)
    ∧ (∀ k, k ≠ K → k ∈ names2 ↔ is_Some (blobs w !! k) ∧ starts_with prefix k).
Proof.
  intros Hr _ Hp.
  destruct (upload_reliable self K data w Hr) as (w1 & Hup & Hb1 & Hr1).
  destruct (list_blobs_reliable self prefix w1 Hr1) as (w2 & Hls2 & Hb2 & Hr2).
  destruct (delete_reliable self K w2 Hr2) as (w3 & Hdel & Hb3 & Hr3).
  destruct (list_blobs_reliable self prefix w3 Hr3) as (w4 & Hls4 & Hb4 & Hr4).
  assert (blobs w3 = base.delete K (blobs w)) as Hgone.
  { by rewrite Hb3, Hb2, Hb1, delete_insert_eq. }
  rewrite Hb2, Hb1, lookup_insert_eq, bool_decide_eq_true_2 in Hdel by eauto.
  eexists w1, _, w2, w3, _, w4.
  split; [done|]. split; [exact Hls2|]. split.
  { apply elem_of_listing. rewrite Hb1, lookup_insert_eq. eauto. }
  split; [done|]. split; [exact Hls4|]. split.
  { rewrite elem_of_listing, Hgone, lookup_delete_eq. by intros [[] _]. }
  intros k Hk. by rewrite elem_of_listing, Hgone, lookup_delete_ne.
Qed.

Lemma list_blobs_after_upload_and_delete_witness :
  ∃ w1 names1 w2 w3 names2 w4,
    upload self0 "test_folder/subfolder/hello_blob.txt" [Byte.x48; Byte.x69] w_one
      = (Ok "test_folder/subfolder/hello_blob.txt", w1)
    ∧ list_blobs self0 (Some "test_folder/") w1 = (Ok names1, w2)
    ∧ "test_folder/subfolder/hello_blob.txt" ∈ names1
    ∧ delete self0 "test_folder/subfolder/hello_blob.txt" w2 = (Ok true, w3)
    ∧ list_blobs self0 (Some "test_folder/") w3 = (Ok names2, w4)
    ∧ ("test_folder/subfolder/hello_blob.txt" ∉ names2)
    ∧ (∀ k, k ≠ "test_folder/subfolder/hello_blob.txt" →
            k ∈ names2 ↔ is_Some (blobs w_one !! k) ∧ starts_with (Some "test_folder/") k).
Proof.
  apply (list_blobs_after_upload_and_delete self0
           "test_folder/subfolder/hello_blob.txt" [Byte.x48; Byte.x69]
           (Some "test_folder/") w_one).
  - constructor.
  - apply (bool_decide_unpack _). vm_compute. exact I.
  - done.
Defined.

(** ** Configuration *)

(** X9. [get_storage] builds the adapter from the settings record: it fails
    exactly as [from_container_url] fails on [settings.sas_url], and otherwise
    the adapter carries the three settings, so that its URLs are made of
    [settings.sas_url] cut at the first '?', the key and [settings.sas_token],
    whatever [settings.azure_blob_name] is. *)
Theorem get_storage_uses_settings `{sdk : SDK}
    (settings : config.Settings) (w : world) :
  match from_container_url (config.sas_url settings) w with
  | (Ok client, w') =>
      ∃ store, get_storage settings w = (Ok store, w')
               ∧ sas_url store = config.sas_url settings
               ∧ sas_token store = config.sas_token settings
               ∧ container_name store = config.azure_blob_name settings
               ∧ container_client store = client
               ∧ ∀ K expiry_hours (w2 : world),
                   get_url store K expiry_hours w2
                   = (Ok (strip_query (config.sas_url settings) +:+ "/" +:+ K
                            +:+ "?" +:+ config.sas_token settings), w2)
  | (Raise e, w') => get_storage settings w = (Raise e, w')
  end.
Proof.
  unfold get_storage, init.
  destruct (from_container_url _ w) as [[client|e] w'] eqn:Hfrom.
  - eexists. rewrite (bind_ok _ _ _ _ _ Hfrom). split; [done|].
    do 4 (split; [done|]). intros K e w2. apply get_url_value.
  - by rewrite (bind_raise _ _ _ _ _ Hfrom).
Qed.

(** X10. [get_settings] loads once: the first call that returns fills the
    cache, and from then on every call returns that same record without
    running the loader, whatever the environment has become; a load that
    raises leaves the cache empty, so the next call loads again. *)
Theorem get_settings_loads_once {W : Type}
    (load : M W config.Settings) (w : W) :
  match load w with
  | (Ok s, w1) =>
      config.get_settings load (None, w) = (Ok s, (Some s, w1))
      ∧ ∀ (load' : M W config.Settings) (w2 : W),
          config.get_settings load' (Some s, w2) = (Ok s, (Some s, w2))
          ∧ (s1 <- config.get_settings load ;;
             s2 <- config.get_settings load' ;;
             ret (s1, s2)) (None, w) = (Ok (s, s), (Some s, w1))
  | (Raise e, w1) =>
      config.get_settings load (None, w) = (Raise e, (None, w1))
      ∧ (config.get_settings load ;;; config.get_settings load) (None, w)
        = (Raise e, (None, w1))
  end.
Proof.
  unfold bind, config.get_settings; cbn.
  destruct (load w) as [[s|e] w1]; cbn; [|done].
  split; [done|]. by intros load' w2.
Qed.

(** * Local files *)

(** ** Text of paths *)

Lemma prefix_nil_true (s : string) : String.prefix "" s = true.
Proof. by destruct s. Qed.

Lemma prefix_String_eq a (s t : string) :
  String.prefix (String a s) (String a t) = String.prefix s t.
Proof.
  change (String.prefix (String a s) (String a t))
    with (if Ascii.ascii_dec a a then String.prefix s t else false).
  by destruct (Ascii.ascii_dec a a).
Qed.

Lemma prefix_String_ne a b (s t : string) :
  a ≠ b → String.prefix (String a s) (String b t) = false.
Proof.
  intros Hne.
  change (String.prefix (String a s) (String b t))
    with (if Ascii.ascii_dec a b then String.prefix s t else false).
  by destruct (Ascii.ascii_dec a b).
Qed.

Lemma prefix_sep_abs_of cs : String.prefix "/" (abs_of cs) = true.
Proof. unfold abs_of. rewrite app_cons, prefix_String_eq. apply prefix_nil_true. Qed.

Lemma chars_app (a b : string) :
  String.list_ascii_of_string (a +:+ b)
  = String.list_ascii_of_string a ++ String.list_ascii_of_string b.
Proof. induction a as [|x a IH]; [done|]. rewrite app_cons. cbn. by rewrite IH. Qed.

Lemma name_first c :
  is_name c → ∃ a rest, c = String a rest ∧ a ≠ "/"%char.
Proof.
  intros (Hne & _ & _ & Hsl). destruct c as [|a rest]; [done|].
  exists a, rest. split; [done|]. intros ->. apply Hsl. cbn. by left.
Qed.

Lemma name_last c :
  is_name c → ∃ l x, String.list_ascii_of_string c = l ++ [x] ∧ x ≠ "/"%char.
Proof.
  intros (Hne & _ & _ & Hsl).
  destruct (String.list_ascii_of_string c) as [|x l _] eqn:Hc using rev_ind.
  - destruct c; [done|discriminate Hc].
  - exists l, x. split; [done|]. intros ->. apply Hsl.
    apply elem_of_app. right. by left.
Qed.

Lemma concat_cons (c c' : string) cs :
  String.concat "/" (c :: c' :: cs) = c +:+ "/" +:+ String.concat "/" (c' :: cs).
Proof. reflexivity. Qed.

Lemma concat_app (cs1 cs2 : list string) :
  cs1 ≠ [] → cs2 ≠ [] →
  String.concat "/" (cs1 ++ cs2)
  = String.concat "/" cs1 +:+ "/" +:+ String.concat "/" cs2.
Proof.
  intros H1 H2. induction cs1 as [|c [|c' cs1] IH]; [done| |].
  - destruct cs2; [done|]. reflexivity.
  - change ((c :: c' :: cs1) ++ cs2) with (c :: c' :: (cs1 ++ cs2)).
    rewrite !concat_cons. change (c' :: cs1 ++ cs2) with ((c' :: cs1) ++ cs2).
    rewrite IH by done. by rewrite !app_assoc.
Qed.

Lemma concat_first cs :
  cs ≠ [] → Forall is_name cs →
  ∃ a rest, String.concat "/" cs = String a rest ∧ a ≠ "/"%char.
Proof.
  intros Hne Hall. destruct cs as [|c cs]; [done|].
  apply Forall_cons in Hall as [(a & rest & -> & Ha)%name_first _].
  destruct cs; [by eauto|]. rewrite concat_cons, app_cons. eauto.
Qed.

Lemma concat_last cs :
  cs ≠ [] → Forall is_name cs →
  ∃ l x, String.list_ascii_of_string (String.concat "/" cs) = l ++ [x]
         ∧ x ≠ "/"%char.
Proof.
  intros Hne Hall. destruct cs as [|c cs0 _] using rev_ind; [done|].
  apply Forall_app in Hall as [_ [(l & x & Hl & Hx)%name_last _]%Forall_cons].
  destruct (decide (cs0 = [])) as [->|Hcs0].
  - exists l, x. done.
  - rewrite concat_app by done. cbn [String.concat].
    rewrite !chars_app, Hl.
    exists (String.list_ascii_of_string (String.concat "/" cs0)
            ++ String.list_ascii_of_string "/" ++ l), x.
    by rewrite <- !(assoc_L (++)).
Qed.

Lemma abs_of_cons cs : abs_of cs = String "/" (String.concat "/" cs).
Proof. reflexivity. Qed.

Lemma abs_of_app cs1 cs2 :
  cs1 ≠ [] → cs2 ≠ [] → abs_of (cs1 ++ cs2) = abs_of cs1 +:+ "/" +:+ String.concat "/" cs2.
Proof. intros. by rewrite !abs_of_cons, concat_app, app_cons. Qed.

Lemma abs_of_last cs :
  cs ≠ [] → Forall is_name cs →
  ∃ l x, String.list_ascii_of_string (abs_of cs) = l ++ [x] ∧ x ≠ "/"%char.
Proof.
  intros Hne Hall. destruct (concat_last cs Hne Hall) as (l & x & Hl & Hx).
  exists ("/"%char :: l), x. rewrite abs_of_cons. cbn. by rewrite Hl.
Qed.

Lemma ends_with_sep_last (s : string) l x :
  String.list_ascii_of_string s = l ++ [x] → x ≠ "/"%char → ends_with_sep s = false.
Proof.
  intros Hs Hx. unfold ends_with_sep. rewrite Hs, reverse_app. cbn.
  by apply bool_decide_eq_false_2.
Qed.

(** ** [str.split] on paths *)

Lemma str_split_name c :
  ("/"%char ∉ String.list_ascii_of_string c) → str_split "/" c = [c].
Proof.
  induction c as [|a c IH]; cbn; [done|]. intros [Ha Hc]%not_elem_of_cons.
  rewrite decide_False by done. by rewrite IH.
Qed.

Lemma str_split_app_sep c (s : string) :
  ("/"%char ∉ String.list_ascii_of_string c) →
  str_split "/" (c +:+ String "/" s) = c :: str_split "/" s.
Proof.
  induction c as [|a c IH]; intros Hc.
  - rewrite app_nil_l. cbn. by rewrite decide_True.
  - cbn in Hc. apply not_elem_of_cons in Hc as [Ha Hc].
    rewrite app_cons. cbn. rewrite decide_False by done. by rewrite IH.
Qed.

Lemma str_split_concat cs :
  cs ≠ [] → Forall is_name cs → str_split "/" (String.concat "/" cs) = cs.
Proof.
  intros Hne Hall. induction cs as [|c [|c' cs] IH]; [done| |].
  - apply Forall_cons in Hall as [(_ & _ & _ & Hc) _]. by apply str_split_name.
  - apply Forall_cons in Hall as [(_ & _ & _ & Hc) Hall].
    rewrite concat_cons. change ("/" +:+ ?s) with (String "/" s).
    rewrite str_split_app_sep by done. by rewrite IH.
Qed.

Lemma str_split_abs_of cs :
  cs ≠ [] → Forall is_name cs → str_split "/" (abs_of cs) = "" :: cs.
Proof.
  intros Hne Hall. rewrite abs_of_cons. cbn. rewrite decide_True by done.
  by rewrite str_split_concat.
Qed.

(** ** [os.path.abspath] and [os.path.dirname] on paths made of plain names *)

Lemma normpath_loop_names n acc cs :
  Forall is_name cs → normpath_loop n acc cs = reverse cs ++ acc.
Proof.
  intros Hall. revert acc. induction Hall as [|c cs (H0 & H1 & H2 & _) _ IH];
    intros acc; [done|]. cbn [normpath_loop].
  rewrite bool_decide_eq_false_2 by by intros [|].
  rewrite bool_decide_eq_true_2 by by left.
  rewrite IH, reverse_cons. by rewrite <- (assoc_L (++)).
Qed.

Lemma normpath_abs_of cs :
  cs ≠ [] → Forall is_name cs → posix_normpath (abs_of cs) = abs_of cs.
Proof.
  intros Hne Hall. unfold posix_normpath.
  rewrite decide_False by by rewrite abs_of_cons.
  rewrite str_split_abs_of by done.
  destruct (concat_first cs Hne Hall) as (a & rest & Hcs & Ha).
  rewrite prefix_sep_abs_of.
  assert (String.prefix "//" (abs_of cs) = false) as ->.
  { rewrite abs_of_cons, Hcs, prefix_String_eq. by apply prefix_String_ne. }
  cbn [andb normpath_loop].
  rewrite bool_decide_eq_true_2 by by left.
  rewrite normpath_loop_names, (right_id_L [] (++)), reverse_involutive by done.
  cbn [str_repeat]. rewrite app_cons, app_nil_l, <- abs_of_cons.
  by rewrite decide_False by by rewrite abs_of_cons.
Qed.

Lemma abspath_plain getcwd_names path absolute cs :
  Forall is_name getcwd_names → plain_path path absolute cs →
  posix_abspath (abs_of getcwd_names) path
  = abs_of ((if absolute then [] else getcwd_names) ++ cs).
Proof.
  intros Hcwd (Hne & Hall & ->). unfold posix_abspath. destruct absolute.
  - rewrite (left_id_L [] (++)). change ("/" +:+ String.concat "/" cs) with (abs_of cs).
    rewrite prefix_sep_abs_of.
    by apply normpath_abs_of.
  - rewrite app_nil_l.
    destruct (concat_first cs Hne Hall) as (a & rest & Hcs & Ha).
    assert (String.prefix "/" (String.concat "/" cs) = false) as Hrel.
    { rewrite Hcs. by apply prefix_String_ne. }
    rewrite Hrel. unfold posix_join. rewrite Hrel.
    rewrite bool_decide_eq_false_2 by by rewrite abs_of_cons.
    destruct (decide (getcwd_names = [])) as [->|Hcwdne].
    + change (ends_with_sep (abs_of [])) with true. cbn [orb].
      change (abs_of [] +:+ String.concat "/" cs) with (abs_of cs).
      by apply normpath_abs_of.
    + destruct (abs_of_last _ Hcwdne Hcwd) as (l & x & Hl & Hx).
      rewrite (ends_with_sep_last _ _ _ Hl Hx). cbn [orb].
      rewrite <- abs_of_app by done. apply normpath_abs_of.
      * by destruct getcwd_names.
      * by apply Forall_app.
Qed.

Lemma drop_while_app_all {A} (p : A → bool) l1 l2 :
  Forall (λ x, p x = true) l1 → drop_while p (l1 ++ l2) = drop_while p l2.
Proof. induction 1 as [|x l1 Hx _ IH]; [done|]. cbn. by rewrite Hx. Qed.

Lemma rstrip_app_all p l1 l2 :
  Forall (λ x, p x = true) l2 → rstrip p (l1 ++ l2) = rstrip p l1.
Proof.
  intros Hall. unfold rstrip. rewrite reverse_app, drop_while_app_all; [done|].
  by apply Forall_reverse.
Qed.

Lemma rstrip_stop p l x : p x = false → rstrip p (l ++ [x]) = l ++ [x].
Proof.
  intros Hx. unfold rstrip. rewrite reverse_app.
  change (reverse [x]) with [x]. cbn [app drop_while]. rewrite Hx.
  by rewrite reverse_cons, reverse_involutive.
Qed.

Lemma name_chars_not_sep c :
  is_name c → Forall (λ x, negb (is_sep x) = true) (String.list_ascii_of_string c).
Proof.
  intros (_ & _ & _ & Hsl). apply Forall_forall. intros x Hx.
  unfold is_sep. rewrite bool_decide_eq_false_2; [done|]. by intros ->.
Qed.

Lemma dirname_abs_of cs c :
  Forall is_name cs → is_name c → posix_dirname (abs_of (cs ++ [c])) = abs_of cs.
Proof.
  intros Hall Hc. unfold posix_dirname.
  destruct (decide (cs = [])) as [->|Hne].
  - rewrite (left_id_L [] (++)), abs_of_cons.
    cbn [String.concat String.list_ascii_of_string].
    change ("/"%char :: ?l) with (["/"%char] ++ l).
    rewrite rstrip_app_all by by apply name_chars_not_sep.
    rewrite (rstrip_stop _ [] "/") by done. reflexivity.
  - rewrite abs_of_app by done. cbn [String.concat].
    change ("/" +:+ c) with (String "/" c).
    destruct (abs_of_last cs Hne Hall) as (l & x & Hl & Hx).
    rewrite chars_app. cbn [String.list_ascii_of_string].
    change ("/"%char :: ?l) with (["/"%char] ++ l).
    rewrite (assoc_L (++) _ ["/"%char]).
    rewrite rstrip_app_all by by apply name_chars_not_sep.
    rewrite (rstrip_stop _ _ "/") by done.
    assert (forallb is_sep (String.list_ascii_of_string (abs_of cs) ++ ["/"%char])
            = false) as ->.
    { rewrite Hl. apply not_true_iff_false. intros Hf.
      rewrite forallb_forall in Hf. specialize (Hf x).
      unfold is_sep in Hf at 1. rewrite bool_decide_eq_false_2 in Hf by done.
      discriminate Hf. apply in_or_app. left. apply in_or_app. right. by left. }
    rewrite (rstrip_app_all is_sep _ ["/"%char]) by by constructor.
    rewrite Hl, rstrip_stop by by apply bool_decide_eq_false_2.
    by rewrite <- Hl, String.string_of_list_ascii_of_string.
Qed.

(** ** Resolved paths *)

Lemma lexical_names cur cs : Forall is_name cs → lexical cur cs = cur ++ cs.
Proof.
  intros Hall. revert cur. unfold lexical.
  induction Hall as [|c cs (H0 & H1 & H2 & _) _ IH]; intros cur; cbn [fold_left].
  - by rewrite (right_id_L [] (++)).
  - rewrite decide_False by by intros [|]. rewrite decide_False by done.
    by rewrite IH, <- (assoc_L (++)).
Qed.

Lemma host_target_abs_of h cs : Forall is_name cs → host_target h (abs_of cs) = cs.
Proof.
  intros Hall. unfold host_target.
  rewrite prefix_sep_abs_of.
  destruct (decide (cs = [])) as [->|Hne]; [done|].
  rewrite str_split_abs_of by done. unfold lexical. cbn [fold_left].
  rewrite decide_True by by left. by apply (lexical_names []).
Qed.

Lemma plain_path_relative cs :
  cs ≠ [] → Forall is_name cs → String.prefix "/" (String.concat "/" cs) = false.
Proof.
  intros Hne Hall. destruct (concat_first cs Hne Hall) as (a & rest & -> & Ha).
  by apply prefix_String_ne.
Qed.

Lemma host_target_plain h path absolute cs :
  plain_path path absolute cs →
  host_target h path = (if absolute then [] else cwd h) ++ cs.
Proof.
  intros (Hne & Hall & ->). destruct absolute.
  - by apply host_target_abs_of.
  - rewrite app_nil_l. unfold host_target.
    rewrite plain_path_relative, str_split_concat by done.
    by apply lexical_names.
Qed.

Lemma elem_of_prefixes {A} (p l : list A) : p ∈ prefixes l ↔ p `prefix_of` l.
Proof.
  revert p. induction l as [|x l IH]; intros p; cbn.
  - rewrite list_elem_of_singleton. split; [intros ->; done|apply prefix_nil_inv].
  - rewrite elem_of_cons, list_elem_of_fmap. split.
    + intros [->|(q & -> & Hq%IH)]; [apply prefix_nil|by apply prefix_cons].
    + destruct p as [|y p]; [by left|]. intros Hp. right.
      pose proof (prefix_cons_inv_1 _ _ _ _ Hp) as ->.
      exists p. split; [done|]. apply IH. by apply prefix_cons_inv_2 in Hp.
Qed.

Lemma prefixes_self {A} (l : list A) : l ∈ prefixes l.
Proof. by apply elem_of_prefixes. Qed.

Lemma snoc_not_prefix {A} (l : list A) x : ¬ (l ++ [x]) `prefix_of` l.
Proof. intros Hp%prefix_length. rewrite length_app in Hp. cbn in Hp. lia. Qed.

Lemma proper_prefix_snoc {A} (p l : list A) x :
  p `prefix_of` l ++ [x] → p ≠ l ++ [x] → p `prefix_of` l.
Proof.
  intros [k Hk] Hne. destruct k as [|y k _] using rev_ind.
  - rewrite (right_id_L [] (++)) in Hk. done.
  - rewrite (assoc_L (++)) in Hk. apply app_inj_tail in Hk as [-> _].
    by apply prefix_app_r.
Qed.

Lemma walk_names h cur cs :
  Forall is_name cs →
  (∀ p, p `prefix_of` cs → p ≠ cs → is_dir h (cur ++ p)) →
  walk h cur cs = inr (cur ++ cs).
Proof.
  intros Hall. revert cur.
  induction Hall as [|c cs (H0 & H1 & H2 & _) _ IH]; intros cur Hdirs; cbn [walk].
  - by rewrite (right_id_L [] (++)).
  - unfold step. rewrite decide_True.
    + rewrite decide_False by by intros [|]. rewrite decide_False by done.
      rewrite IH; [by rewrite <- (assoc_L (++))|].
      intros p Hp Hne. rewrite <- (assoc_L (++)). apply Hdirs.
      * by apply prefix_cons.
      * by intros [= ->].
    + rewrite <- (right_id_L [] (++) cur). apply Hdirs; [apply prefix_nil|done].
Qed.

Lemma step_ext h h' cur c :
  files h = files h' → dirs h = dirs h' → step h cur c = step h' cur c.
Proof. intros Hf Hd. unfold step, is_dir. by rewrite Hf, Hd. Qed.

Lemma walk_ext h h' cur cs :
  files h = files h' → dirs h = dirs h' → walk h cur cs = walk h' cur cs.
Proof.
  intros Hf Hd. revert cur. induction cs as [|c cs IH]; intros cur; [done|].
  cbn [walk]. rewrite (step_ext h h') by done.
  destruct (step h' cur c); [done|apply IH].
Qed.

Lemma host_resolve_ext h h' path :
  files h = files h' → dirs h = dirs h' → cwd h = cwd h' →
  host_resolve h path = host_resolve h' path.
Proof.
  intros Hf Hd Hc. unfold host_resolve. rewrite Hc.
  destruct (decide _); [done|]. by apply walk_ext.
Qed.

Lemma host_find_ext h h' path :
  files h = files h' → dirs h = dirs h' → cwd h = cwd h' →
  host_find h path = host_find h' path.
Proof.
  intros Hf Hd Hc. unfold host_find, is_dir.
  by rewrite (host_resolve_ext h h'), Hf, Hd.
Qed.

Lemma host_create_ext h h' path :
  files h = files h' → dirs h = dirs h' → cwd h = cwd h' →
  host_create h path = host_create h' path.
Proof.
  intros Hf Hd Hc. unfold host_create, is_dir.
  by rewrite !(host_resolve_ext h h'), Hf, Hd.
Qed.

Lemma host_resolve_plain h path absolute cs0 c :
  plain_path path absolute (cs0 ++ [c]) →
  (∀ p, p `prefix_of` (if absolute then [] else cwd h) ++ cs0 → is_dir h p) →
  host_resolve h path = inr ((if absolute then [] else cwd h) ++ cs0 ++ [c]).
Proof.
  intros (Hne & Hall & ->) Hdirs. unfold host_resolve.
  assert (∀ p, p `prefix_of` cs0 ++ [c] → p ≠ cs0 ++ [c] →
               is_dir h ((if absolute then [] else cwd h) ++ p)) as Hsteps.
  { intros p Hp Hneq. apply Hdirs, prefix_app, (proper_prefix_snoc _ _ c); done. }
  destruct absolute.
  - change ("/" +:+ String.concat "/" (cs0 ++ [c])) with (abs_of (cs0 ++ [c])).
    rewrite decide_False by by rewrite abs_of_cons.
    rewrite prefix_sep_abs_of, str_split_abs_of by done.
    cbn [walk]. unfold step. rewrite decide_True by by left.
    rewrite decide_True by by left. by apply walk_names.
  - rewrite app_nil_l.
    destruct (concat_first _ Hne Hall) as (a & rest & Hcs & Ha).
    rewrite decide_False by by rewrite Hcs.
    rewrite plain_path_relative, str_split_concat by done.
    by apply walk_names.
Qed.

Lemma plain_path_no_trailing_sep path absolute cs :
  plain_path path absolute cs → ends_with_sep path = false.
Proof.
  intros (Hne & Hall & ->). destruct absolute.
  - destruct (abs_of_last cs Hne Hall) as (l & x & Hl & Hx).
    exact (ends_with_sep_last _ _ _ Hl Hx).
  - rewrite app_nil_l. destruct (concat_last cs Hne Hall) as (l & x & Hl & Hx).
    exact (ends_with_sep_last _ _ _ Hl Hx).
Qed.

Lemma host_create_plain h path absolute cs0 c :
  plain_path path absolute (cs0 ++ [c]) →
  (∀ p, p `prefix_of` (if absolute then [] else cwd h) ++ cs0 → is_dir h p) →
  ¬ is_dir h ((if absolute then [] else cwd h) ++ cs0 ++ [c]) →
  host_create h path = inr ((if absolute then [] else cwd h) ++ cs0 ++ [c]).
Proof.
  intros Hpath Hdirs Hnodir. unfold host_create.
  rewrite (plain_path_no_trailing_sep _ _ _ Hpath).
  rewrite (host_resolve_plain _ _ _ _ _ Hpath Hdirs).
  rewrite decide_False by done.
  rewrite (assoc_L (++)), removelast_last. by rewrite decide_True by by apply Hdirs.
Qed.

(** ** Steps of the host *)

Lemma request_pop w : reliable w → request w = (Ok tt, pop_faults w).
Proof.
  unfold reliable, request, pop_faults. destruct w as [b [|[e|] fs]]; cbn; try done.
  intros [? _]%Forall_cons. done.
Qed.

Lemma reliable_pop w : reliable w → reliable (pop_faults w).
Proof.
  unfold reliable, pop_faults. destruct w as [b [|f fs]]; cbn; [done|].
  by intros [_ ?]%Forall_cons.
Qed.

Lemma syscall_pop h :
  Forall (λ f, f = None) (os_faults h) → syscall h = (Returns tt, pop_os h).
Proof.
  unfold syscall, pop_os. destruct h as [c f d cw [|[e|] fs]]; cbn; try done.
  intros [? _]%Forall_cons. done.
Qed.

Lemma os_faults_pop h :
  Forall (λ f, f = None) (os_faults h) →
  Forall (λ f, f = None) (os_faults (pop_os h)).
Proof.
  intros Ho. cbn. destruct (os_faults h); [done|]. by apply Forall_cons in Ho as [_ ?].
Qed.

Lemma mem_upload_blob_pop b data w :
  reliable w →
  mem_upload_blob b data true w
  = (Ok tt, set_blobs <[blob_name b := data]> (pop_faults w)).
Proof.
  intros Hr. unfold mem_upload_blob, bind. rewrite request_pop by done. cbn.
  by destruct (blobs w !! blob_name b).
Qed.

Lemma mem_download_blob_pop b w :
  reliable w →
  mem_download_blob b w
  = (match blobs w !! blob_name b with
     | Some data => Ok {| content := data |}
     | None => Raise ResourceNotFoundError
     end, pop_faults w).
Proof.
  intros Hr. unfold mem_download_blob, bind. rewrite request_pop by done. cbn.
  by destruct (blobs w !! blob_name b).
Qed.

Lemma host_open_fault h path mode e fs :
  os_faults h = Some e :: fs →
  host_open path mode h
  = (Raises (OSError e),
     {| cloud := cloud h; files := files h; dirs := dirs h; cwd := cwd h;
        os_faults := fs |}).
Proof. intros Hf. unfold host_open, io_bind, syscall. by rewrite Hf. Qed.

Lemma host_open_rb h path :
  Forall (λ f, f = None) (os_faults h) →
  host_open path rb h
  = (match host_find h path with
     | inr r => Returns {| file_name := r |}
     | inl e => Raises (OSError e)
     end, pop_os h).
Proof.
  intros Ho. unfold host_open, io_bind. rewrite syscall_pop by done.
  rewrite (host_find_ext (pop_os h) h) by done. by destruct (host_find h path).
Qed.

Lemma host_open_wb h path r :
  Forall (λ f, f = None) (os_faults h) → host_create h path = inr r →
  host_open path wb h
  = (Returns {| file_name := r |}, set_files <[r := []]> (pop_os h)).
Proof.
  intros Ho Hr. unfold host_open, io_bind. rewrite syscall_pop by done.
  by rewrite (host_create_ext (pop_os h) h), Hr.
Qed.

Lemma host_makedirs_ok h ns :
  Forall (λ f, f = None) (os_faults h) → Forall is_name ns →
  Forall (λ p, files h !! p = None) (prefixes ns) →
  host_makedirs (abs_of ns) true h
  = (Returns tt, set_dirs (λ ds, list_to_set (prefixes ns) ∪ ds) (pop_os h)).
Proof.
  intros Ho Hns Hfree. unfold host_makedirs, io_bind. rewrite syscall_pop by done.
  rewrite decide_False by by rewrite abs_of_cons.
  cbv zeta. rewrite host_target_abs_of by done.
  change (files (pop_os h)) with (files h).
  assert (files h !! ns = None) as Hnone.
  { rewrite Forall_forall in Hfree. apply Hfree, prefixes_self. }
  rewrite decide_False by (rewrite Hnone; by intros []).
  rewrite decide_False.
  - by rewrite andb_false_r.
  - intros (x & Hx & [v Hv])%Exists_exists.
    rewrite Forall_forall in Hfree. by rewrite (Hfree x Hx) in Hv.
Qed.

Section OnHost.
Local Existing Instance HostSDK.
Local Existing Instance HostOS.
Implicit Types (self : @AzureBlobStorage HostSDK) (h : HostWorld).

Lemma host_upload self K data h :
  reliable (cloud h) →
  upload self K data h
  = (Ok K, {| cloud := set_blobs <[K := data]> (pop_faults (cloud h));
              files := files h; dirs := dirs h; cwd := cwd h;
              os_faults := os_faults h |}).
Proof.
  intros Hr. unfold upload, bind; cbn. unfold on_cloud; cbn.
  by rewrite mem_upload_blob_pop.
Qed.

Lemma host_download self K h :
  reliable (cloud h) →
  download self K h
  = (match blobs (cloud h) !! K with
     | Some data => Ok data
     | None => Raise ResourceNotFoundError
     end,
     {| cloud := pop_faults (cloud h); files := files h; dirs := dirs h;
        cwd := cwd h; os_faults := os_faults h |}).
Proof.
  intros Hr. unfold download, bind; cbn. unfold on_cloud; cbn.
  rewrite mem_download_blob_pop by done. cbn. by destruct (blobs (cloud h) !! K).
Qed.

Lemma upload_from_file_ok self src K r data h :
  host_reliable h → host_find h src = inr r → files h !! r = Some data →
  upload_from_file self src K h
  = (Returns K,
     {| cloud := set_blobs <[K := data]> (pop_faults (cloud h));
        files := files h; dirs := dirs h; cwd := cwd h;
        os_faults := tail (os_faults h) |}).
Proof.
  intros [Hc Ho] Hfind Hsrc. unfold upload_from_file, with_open, io_bind.
  cbn [open_ HostOS].
  rewrite host_open_rb, Hfind by done.
  unfold io_finally, lift; cbn -[upload]. rewrite Hsrc; cbn -[upload].
  by rewrite host_upload.
Qed.

Lemma upload_from_file_unopened self src K h e h' :
  host_open src rb h = (Raises e, h') →
  upload_from_file self src K h = (Raises e, h').
Proof.
  intros Hopen. unfold upload_from_file, with_open, io_bind. cbn [open_ HostOS].
  by rewrite Hopen.
Qed.

Lemma download_to_file_run self K dst h :
  Forall (λ f, f = None) (os_faults h) → creatable h dst →
  (reliable (cloud h) →
   download_to_file self K dst h
   = (match blobs (cloud h) !! K with
      | Some _ => Returns dst
      | None => Raises (Exn ResourceNotFoundError)
      end,
      {| cloud := pop_faults (cloud h);
         files := <[host_target h dst := default [] (blobs (cloud h) !! K)]> (files h);
         dirs := list_to_set (prefixes (removelast (host_target h dst))) ∪ dirs h;
         cwd := cwd h;
         os_faults := tail (tail (os_faults h)) |}))
  ∧ (∀ e fs, faults (cloud h) = Some e :: fs →
     download_to_file self K dst h
     = (Raises (Exn e),
        {| cloud := {| blobs := blobs (cloud h); faults := fs |};
           files := <[host_target h dst := []]> (files h);
           dirs := list_to_set (prefixes (removelast (host_target h dst))) ∪ dirs h;
           cwd := cwd h;
           os_faults := tail (tail (os_faults h)) |})).
Proof.
  intros Ho ((absolute & cs & Hpath) & Hcwd & Hnodir & Hfree).
  pose proof Hpath as (Hne & Hall & _).
  destruct cs as [|c cs0 _] using rev_ind; [done|].
  rewrite (host_target_plain _ _ _ _ Hpath) in *.
  rewrite (assoc_L (++)), removelast_last in *.
  apply Forall_app in Hall as [Hcs0 [Hc _]%Forall_cons].
  set (start := if absolute then [] else cwd h) in *.
  assert (Forall is_name (start ++ cs0)) as Hparent.
  { apply Forall_app. split; [|done]. subst start. by destruct absolute. }
  pose (h2 := {| cloud := cloud h; files := files h;
                 dirs := list_to_set (prefixes (start ++ cs0)) ∪ dirs h;
                 cwd := cwd h; os_faults := tail (os_faults h) |}).
  assert (host_create h2 dst = inr ((start ++ cs0) ++ [c])) as Hcreate.
  { rewrite <- (assoc_L (++)). apply (host_create_plain h2 _ _ _ _ Hpath).
    - intros p Hp. right. cbn. apply elem_of_union. left.
      by apply elem_of_list_to_set, elem_of_prefixes.
    - change (cwd h2) with (cwd h). fold start. rewrite (assoc_L (++)).
      intros [Hnil|[Hin%elem_of_list_to_set%elem_of_prefixes|Hin]%elem_of_union].
      + by destruct (start ++ cs0).
      + by apply snoc_not_prefix in Hin.
      + apply Hnodir. by right. }
  assert (Forall (λ f, f = None) (os_faults h2)) as Ho'.
  { cbn. destruct (os_faults h); [done|]. by apply Forall_cons in Ho as [_ ?]. }
  pose proof (host_open_wb h2 _ _ Ho' Hcreate) as Hopen.
  unfold h2 in Hopen. clear Ho' Hcreate h2.
  split; [intros Hr|intros e fs Hf];
    unfold download_to_file, with_open, io_bind;
    cbn [os_path_abspath os_makedirs open_ HostOS io_ret];
    rewrite (abspath_plain _ _ _ _ Hcwd Hpath); fold start;
    rewrite (assoc_L (++)), dirname_abs_of by done;
    rewrite host_makedirs_ok by done;
    unfold lift at 1; cbn [get_blob_client HostSDK]; unfold on_cloud at 1, ret;
    cbn [cloud files dirs cwd os_faults set_dirs pop_os];
    rewrite Hopen;
    unfold io_finally, lift; cbn; unfold on_cloud; cbn.
  - rewrite mem_download_blob_pop by done. cbn.
    destruct (blobs (cloud h) !! K) as [data|]; cbn; [|done].
    unfold io_ret, set_files; cbn. by rewrite lookup_insert_eq, insert_insert_eq.
  - unfold mem_download_blob, bind. by rewrite (request_fault _ _ _ Hf).
Qed.
Lemma host_find_created h h' dst data :
  creatable h dst → cwd h' = cwd h →
  list_to_set (prefixes (removelast (host_target h dst))) ⊆ dirs h' →
  files h' !! host_target h dst = Some data →
  host_find h' dst = inr (host_target h dst).
Proof.
  intros ((absolute & cs & Hpath) & _ & _ & _) Hcwd Hdirs Hfile.
  pose proof Hpath as (Hne & _ & _).
  destruct cs as [|c cs0 _] using rev_ind; [done|].
  rewrite (host_target_plain _ _ _ _ Hpath) in *.
  rewrite (assoc_L (++)), removelast_last in *.
  unfold host_find. rewrite (host_resolve_plain h' _ _ _ _ Hpath), Hcwd.
  - rewrite (assoc_L (++)). rewrite decide_True; [done|]. by rewrite Hfile.
  - rewrite Hcwd. intros p Hp. right.
    by apply Hdirs, elem_of_list_to_set, elem_of_prefixes.
Qed.

(** ** [upload_from_file] *)

(** X11. While the service and the operating system go through, and the
    source path (relative to the current directory, or absolute) resolves to
    an existing regular file, [upload_from_file] stores exactly the content
    of that file under the destination key and returns that key; the local
    files and directories are left as they were, and a [download] of the key
    then gives the content back. *)
Theorem upload_from_file_uploads_content self (src K : string)
    (r : list string) (data : bytes) h :
  host_reliable h → host_find h src = inr r → files h !! r = Some data →
  ∃ h1 h2,
    upload_from_file self src K h = (Returns K, h1)
    ∧ blobs (cloud h1) = <[K := data]> (blobs (cloud h))
    ∧ files h1 = files h ∧ dirs h1 = dirs h
    ∧ download self K h1 = (Ok data, h2).
Proof.
  intros Hh Hfind Hsrc. eexists _, _.
  split; [by apply (upload_from_file_ok _ _ _ r)|]. do 3 (split; [done|]).
  rewrite host_download by apply reliable_pop, Hh. cbn.
  by rewrite lookup_insert_eq.
Qed.

Lemma upload_from_file_uploads_content_witness :
  ∃ h1 h2,
    upload_from_file host_self0 "in.txt" "a/in.txt" host0 = (Returns "a/in.txt", h1)
    ∧ blobs (cloud h1) = <["a/in.txt" := [Byte.x68; Byte.x69]]> (blobs (cloud host0))
    ∧ files h1 = files host0 ∧ dirs h1 = dirs host0
    ∧ download host_self0 "a/in.txt" h1 = (Ok [Byte.x68; Byte.x69], h2).
Proof.
  apply (upload_from_file_uploads_content host_self0 "in.txt" "a/in.txt"
           ["home"; "u"; "in.txt"] [Byte.x68; Byte.x69] host0).
  - split; constructor.
  - vm_compute. reflexivity.
  - apply lookup_singleton_eq.
Defined.

(** X12. When the source cannot be opened, [upload_from_file] raises the
    operating system's error and the service is never contacted: the
    container, its pending faults and the local files are exactly as before.
    With the operating system going through, the error is that of resolving
    the path when a component on the way is missing or is no directory, and
    otherwise is-a-directory when the path names a directory and
    file-not-found when it names nothing; when the operating system fails
    the call for another reason, the error is that one. *)
Theorem upload_from_file_unreadable_source :
  (∀ self (src K : string) h r,
     Forall (λ f, f = None) (os_faults h) →
     host_resolve h src = inr r → files h !! r = None →
     ∃ h', upload_from_file self src K h
           = (Raises (OSError (if decide (is_dir h r) then IsADirectoryError
                               else FileNotFoundError)), h')
           ∧ cloud h' = cloud h ∧ files h' = files h)
  ∧ (∀ self (src K : string) h e,
       Forall (λ f, f = None) (os_faults h) → host_resolve h src = inl e →
       ∃ h', upload_from_file self src K h = (Raises (OSError e), h')
             ∧ cloud h' = cloud h ∧ files h' = files h)
  ∧ (∀ self (src K : string) h e fs,
       os_faults h = Some e :: fs →
       ∃ h', upload_from_file self src K h = (Raises (OSError e), h')
             ∧ cloud h' = cloud h ∧ files h' = files h).
Proof.
  split; [|split].
  - intros self src K h r Ho Hres Hsrc. exists (pop_os h). split; [|done].
    apply upload_from_file_unopened. rewrite host_open_rb by done.
    unfold host_find. rewrite Hres, decide_False by (rewrite Hsrc; by intros []).
    by destruct (decide (is_dir h r)).
  - intros self src K h e Ho Hres. exists (pop_os h). split; [|done].
    apply upload_from_file_unopened. rewrite host_open_rb by done.
    unfold host_find. by rewrite Hres.
  - intros self src K h e fs Hf. eexists. split.
    + apply upload_from_file_unopened. exact (host_open_fault _ _ _ _ _ Hf).
    + done.
Qed.

Lemma upload_from_file_unreadable_source_witness :
  ∃ h', upload_from_file host_self0 "temp_test_file.txt" "k" host0
        = (Raises (OSError FileNotFoundError), h')
        ∧ cloud h' = cloud host0 ∧ files h' = files host0.
Proof.
  destruct upload_from_file_unreadable_source as [H _].
  apply (H host_self0 "temp_test_file.txt" "k" host0
           ["home"; "u"; "temp_test_file.txt"]).
  - constructor.
  - vm_compute. reflexivity.
  - vm_compute. reflexivity.
Defined.

(** ** [download_to_file] *)

(** X13. While the service and the operating system go through, for a
    destination path made of plain names (relative to the current directory,
    itself made of plain names, or absolute) that names no directory and has
    no regular file among its ancestors: [download_to_file] makes the
    missing parent directories of the destination, writes exactly the
    blob's content to the destination, replacing what the file held, and
    returns the destination path as it was given; the destination then
    opens as that file, and no other file and no blob changes. *)
Theorem download_to_file_writes_blob self (K dst : string) (data : bytes) h :
  host_reliable h → creatable h dst → blobs (cloud h) !! K = Some data →
  ∃ h', download_to_file self K dst h = (Returns dst, h')
        ∧ files h' = <[host_target h dst := data]> (files h)
        ∧ host_find h' dst = inr (host_target h dst)
        ∧ is_dir h' (removelast (host_target h dst)) ∧ dirs h ⊆ dirs h'
        ∧ blobs (cloud h') = blobs (cloud h).
Proof.
  intros [Hc Ho] Hcr HK.
  destruct (download_to_file_run self K dst h Ho Hcr) as [Hrun _].
  eexists. split; [by rewrite Hrun, HK|]. cbn. split; [done|]. split.
  { apply (host_find_created h _ dst data Hcr); cbn;
      [done|apply union_subseteq_l|apply lookup_insert_eq]. }
  split; [|split; [apply union_subseteq_r|done]].
  right. cbn. apply elem_of_union. left. apply elem_of_list_to_set, prefixes_self.
Qed.

Lemma creatable_host0 : creatable host0 "out/copy.txt".
Proof.
  split; [|apply (bool_decide_unpack _); vm_compute; exact I].
  exists false, ["out"; "copy.txt"]. split; [done|]. split; [|done].
  apply (bool_decide_unpack _). vm_compute. exact I.
Defined.

Lemma download_to_file_writes_blob_witness :
  ∃ h', download_to_file host_self0 "k" "out/copy.txt" host0
        = (Returns "out/copy.txt", h')
        ∧ files h' = <[host_target host0 "out/copy.txt" := [Byte.x01]]> (files host0)
        ∧ host_find h' "out/copy.txt" = inr (host_target host0 "out/copy.txt")
        ∧ is_dir h' (removelast (host_target host0 "out/copy.txt"))
        ∧ dirs host0 ⊆ dirs h'
        ∧ blobs (cloud h') = blobs (cloud host0).
Proof.
  apply (download_to_file_writes_blob host_self0 "k" "out/copy.txt"
           [Byte.x01] host0).
  - split; constructor.
  - exact creatable_host0.
  - apply lookup_singleton_eq.
Defined.

(** X14. The destination is opened for writing before the blob is fetched.
    For a destination path made of plain names (relative to the current
    directory, itself made of plain names, or absolute) that names no
    directory and has no regular file among its ancestors, and while the
    operating system goes through: when the download then fails, because the
    key is absent while the service goes through or because the service
    reports an error, [download_to_file] raises that error and leaves the
    destination as an empty file, whatever it held before; the parent
    directory has been made and no blob changes. *)
Theorem download_to_file_failure_truncates :
  (∀ self (K dst : string) h,
     host_reliable h → creatable h dst → blobs (cloud h) !! K = None →
     ∃ h', download_to_file self K dst h = (Raises (Exn ResourceNotFoundError), h')
           ∧ files h' = <[host_target h dst := []]> (files h)
           ∧ host_find h' dst = inr (host_target h dst)
           ∧ is_dir h' (removelast (host_target h dst))
           ∧ blobs (cloud h') = blobs (cloud h))
  ∧ (∀ self (K dst : string) h e fs,
       Forall (λ f, f = None) (os_faults h) → creatable h dst →
       faults (cloud h) = Some e :: fs →
       ∃ h', download_to_file self K dst h = (Raises (Exn e), h')
             ∧ files h' = <[host_target h dst := []]> (files h)
             ∧ host_find h' dst = inr (host_target h dst)
             ∧ is_dir h' (removelast (host_target h dst))
             ∧ blobs (cloud h') = blobs (cloud h)).
Proof.
  split.
  - intros self K dst h [Hc Ho] Hcr HK.
    destruct (download_to_file_run self K dst h Ho Hcr) as [Hrun _].
    eexists. split; [by rewrite Hrun, HK|]. cbn. split; [done|]. split.
    { apply (host_find_created h _ dst [] Hcr); cbn;
        [done|apply union_subseteq_l|apply lookup_insert_eq]. }
    split; [|done].
    right. cbn. apply elem_of_union. left. apply elem_of_list_to_set, prefixes_self.
  - intros self K dst h e fs Ho Hcr Hf.
    destruct (download_to_file_run self K dst h Ho Hcr) as [_ Hrun].
    eexists. split; [exact (Hrun e fs Hf)|]. cbn. split; [done|]. split.
    { apply (host_find_created h _ dst [] Hcr); cbn;
        [done|apply union_subseteq_l|apply lookup_insert_eq]. }
    split; [|done].
    right. cbn. apply elem_of_union. left. apply elem_of_list_to_set, prefixes_self.
Qed.

Lemma creatable_existing_host0 : creatable host0 "in.txt".
Proof.
  split; [|apply (bool_decide_unpack _); vm_compute; exact I].
  exists false, ["in.txt"]. split; [done|]. split; [|done].
  apply (bool_decide_unpack _). vm_compute. exact I.
Defined.

Lemma download_to_file_failure_truncates_witness :
  files host0 !! host_target host0 "in.txt" = Some [Byte.x68; Byte.x69]
  ∧ ∃ h', download_to_file host_self0 "missing" "in.txt" host0
          = (Raises (Exn ResourceNotFoundError), h')
          ∧ files h' = <[host_target host0 "in.txt" := []]> (files host0)
          ∧ host_find h' "in.txt" = inr (host_target host0 "in.txt")
          ∧ is_dir h' (removelast (host_target host0 "in.txt"))
          ∧ blobs (cloud h') = blobs (cloud host0).
Proof.
  split; [vm_compute; reflexivity|].
  destruct download_to_file_failure_truncates as [H _].
  apply (H host_self0 "missing" "in.txt" host0).
  - split; constructor.
  - exact creatable_existing_host0.
  - by apply lookup_singleton_ne.
Defined.

(** X15. Round trip through the container. While the service and the
    operating system go through, for a source path that resolves to an
    existing regular file and a destination path made of plain names
    (relative to the current directory, itself made of plain names, or
    absolute) that names no directory and has no regular file among its
    ancestors: [upload_from_file] of the source followed by
    [download_to_file] of the same key leaves at the destination exactly the
    bytes of the source, and no other local file changes. *)
Theorem file_round_trip self (src K dst : string) (r : list string)
    (data : bytes) h :
  host_reliable h → host_find h src = inr r → files h !! r = Some data →
  creatable h dst →
  ∃ h1 h2,
    upload_from_file self src K h = (Returns K, h1)
    ∧ download_to_file self K dst h1 = (Returns dst, h2)
    ∧ files h2 = <[host_target h dst := data]> (files h)
    ∧ host_find h2 dst = inr (host_target h dst)
    ∧ blobs (cloud h2) = <[K := data]> (blobs (cloud h)).
Proof.
  intros Hh Hfind Hsrc Hcr. pose proof Hh as [Hc Ho].
  pose proof (upload_from_file_ok self src K r data h Hh Hfind Hsrc) as Hup.
  destruct (download_to_file_run self K dst
              {| cloud := set_blobs <[K := data]> (pop_faults (cloud h));
                 files := files h; dirs := dirs h; cwd := cwd h;
                 os_faults := tail (os_faults h) |})
    as [Hrun _].
  { cbn. destruct (os_faults h); [done|]. by apply Forall_cons in Ho as [_ ?]. }
  { exact Hcr. }
  specialize (Hrun (reliable_pop _ Hc)).
  cbn [cloud blobs files set_blobs pop_faults] in Hrun.
  rewrite lookup_insert_eq in Hrun.
  eexists _, _. split; [exact Hup|]. split; [exact Hrun|]. cbn.
  split; [done|]. split; [|done].
  apply (host_find_created h _ dst data Hcr); cbn;
    [done|apply union_subseteq_l|apply lookup_insert_eq].
Qed.

Lemma file_round_trip_witness :
  ∃ h1 h2,
    upload_from_file host_self0 "in.txt" "a/in.txt" host0 = (Returns "a/in.txt", h1)
    ∧ download_to_file host_self0 "a/in.txt" "out/copy.txt" h1
      = (Returns "out/copy.txt", h2)
    ∧ files h2 = <[host_target host0 "out/copy.txt" := [Byte.x68; Byte.x69]]> (files host0)
    ∧ host_find h2 "out/copy.txt" = inr (host_target host0 "out/copy.txt")
    ∧ blobs (cloud h2) = <["a/in.txt" := [Byte.x68; Byte.x69]]> (blobs (cloud host0)).
Proof.
  apply (file_round_trip host_self0 "in.txt" "a/in.txt" "out/copy.txt"
           ["home"; "u"; "in.txt"] [Byte.x68; Byte.x69] host0).
  - split; constructor.
  - vm_compute. reflexivity.
  - apply lookup_singleton_eq.
  - exact creatable_host0.
Defined.

(** ** The calls of [src/test_blob.py] on local files, with its relative
    paths *)

Example script_local_files :
  let up := upload_from_file host_self0 "in.txt"
              "test_folder/subfolder/file_upload.txt" host0 in
  let down := download_to_file host_self0 "test_folder/subfolder/file_upload.txt"
                "downloaded_test_file.txt" up.2 in
  up.1 = Returns "test_folder/subfolder/file_upload.txt"
  ∧ down.1 = Returns "downloaded_test_file.txt"
  ∧ files down.2 !! ["home"; "u"; "downloaded_test_file.txt"]
    = Some [Byte.x68; Byte.x69]
  ∧ files down.2 !! ["home"; "u"; "in.txt"] = Some [Byte.x68; Byte.x69].
Proof. vm_compute. repeat split; reflexivity. Qed.

Example dirname_examples :
  posix_dirname <$> ["/a/b"; "/a"; "a"; "/a/b/"; "//a"; "a//b"; ""; "/"; "///a//b//"]
  = ["/a"; "/"; ""; "/a/b"; "//"; "a"; ""; "/"; "///a//b"].
Proof. vm_compute. reflexivity. Qed.

Example normpath_examples :
  posix_normpath <$> [""; "."; ".."; "/"; "//"; "///"; "//a"; "///a"; "a"; "a/";
                      "a//b"; "./a"; "a/./b"; "a/../b"; "../a"; "/.."; "/../a";
                      "/a/../.."; "a/.."; "a/../.."; "/a/b/"; "//a/../b"]
  = ["."; "."; ".."; "/"; "//"; "/"; "//a"; "/a"; "a"; "a";
     "a/b"; "a"; "a/b"; "b"; "../a"; "/"; "/a";
     "/"; "."; ".."; "/a/b"; "//b"].
Proof. vm_compute. reflexivity. Qed.

Example join_examples :
  [posix_join "/home/u" "x"; posix_join "/" "x"; posix_join "" "x";
   posix_join "/a/" "x"; posix_join "/a" "/x"; posix_join "a" ""]
  = ["/home/u/x"; "/x"; "x"; "/a/x"; "/x"; "a/"].
Proof. vm_compute. reflexivity. Qed.

Example abspath_examples :
  posix_abspath "/home/u" <$> [""; "."; ".."; "/"; "a/"; "a/../b"; "../../a";
                               "downloaded_test_file.txt"; "out/x.txt";
                               "/home/u/out/copy.txt"]
  = ["/home/u"; "/home/u"; "/home"; "/"; "/home/u/a"; "/home/u/b"; "/a";
     "/home/u/downloaded_test_file.txt"; "/home/u/out/x.txt";
     "/home/u/out/copy.txt"].
Proof. vm_compute. reflexivity. Qed.

Example open_examples :
  host_find host0 <$> ["in.txt"; "/home/u/in.txt"; "../u/in.txt"; "none.txt";
                       "in.txt/x"; "x/y"; "."; ""]
  = [inr ["home"; "u"; "in.txt"]; inr ["home"; "u"; "in.txt"];
     inr ["home"; "u"; "in.txt"]; inl FileNotFoundError;
     inl NotADirectoryError; inl FileNotFoundError; inl IsADirectoryError;
     inl FileNotFoundError]
  ∧ host_create host0 <$> ["out.txt"; "in.txt"; "nodir/out.txt"; "in.txt/x"; "."; "new/"]
    = [inr ["home"; "u"; "out.txt"]; inr ["home"; "u"; "in.txt"];
       inl FileNotFoundError; inl NotADirectoryError; inl IsADirectoryError;
       inl IsADirectoryError].
Proof. split; vm_compute; reflexivity. Qed.
End OnHost.
